(** * The generic prompt engine of cliffy ([prompt/_generic_prompt.ts])

    A shallow embedding of the abstract class [GenericPrompt]: its settings
    assembly, the render / read / validate loop, the validation pipeline
    and the injected-value slot, followed by the properties the
    specification states about them.

    Conventions of the embedding.
    - TypeScript generics are erased at run time, so [TValue] and
      [TRawValue] are both the type [JsValue] of run-time values;
      [undefined] is the constructor [JUndefined].
    - A JavaScript string is a [string]; its [length] is [String.length]
      (one character per code unit).
    - The class is effectful: every method is a computation in the monad
      [M], which threads the [World] (the static slot, the private fields
      of the instance, the terminal) and ends in one of the outcomes a
      JavaScript promise or process can reach.  A thrown error keeps the
      side effects performed before the throw.
    - Every call that leaves the class (terminal driver, reader, writer, key
      decoder, validators, transforms, [Deno.exit]) is appended to the
      [trace] of the world, in program order. *)

From Stdlib Require Import String Ascii List ZArith Bool Lia.
Import ListNotations.
Local Open Scope string_scope.
Local Open Scope Z_scope.

(** ** Run-time values *)

(** The values a prompt can carry.  Numbers are restricted to the integers
    and [NaN]; objects are opaque references. *)
Inductive JsValue : Type :=
| JUndefined
| JNull
| JBool (b : bool)
| JNumber (n : Z)
| JNaN
| JString (s : string)
| JObject (ref : nat).

(** [typeof v !== "undefined"] *)
Definition defined (v : JsValue) : bool :=
  match v with
  | JUndefined => false
  | _ => true
  end.

(** JavaScript truthiness, the meaning of [v ? _ : _], [!v] and [v && _]. *)
Definition truthy (v : JsValue) : bool :=
  match v with
  | JUndefined | JNull | JNaN => false
  | JBool b => b
  | JNumber n => negb (n =? 0)
  | JString s => negb (s =? "")%string
  | JObject _ => true
  end.

(** Truthiness of a [string | undefined]. *)
Definition truthy_string (s : option string) : bool :=
  match s with
  | Some m => negb (m =? "")%string
  | None => false
  end.

(** ** The data model of the module *)

(** [type ValidateResult = string | boolean] once awaited. *)
Inductive ValidateResult : Type :=
| VBool (b : bool)
| VString (message : string).

(** An optional property of an object literal: not an own property
    ([None]), an own property holding [undefined] ([Some None]) or an own
    property holding a value. *)
Definition OptionalProperty (A : Type) : Type := option (option A).

(** [interface GenericPromptKeys { submit?: Array<string> }] *)
Record GenericPromptKeys : Type := {
  k_submit : OptionalProperty (list string)
}.

(** Modelled from the spec: the interface [KeyCode] of
    [keycode/key_code.ts], a decoded key event with an optional symbolic
    name, an optional raw sequence and the modifier flags. *)
Record KeyCode : Type := {
  name : option string;
  sequence : option string;
  ctrl : bool;
  meta : bool;
  shift : bool
}.

(** [interface GenericPromptOptions]: what the caller passes.  The reader
    and writer handles live in the [Platform]. *)
Record GenericPromptOptions : Type := {
  o_message : string;
  o_default : JsValue;
  o_hideDefault : bool;
  o_validate : option (JsValue -> ValidateResult);
  o_transform : option (JsValue -> JsValue);
  o_hint : option string;
  o_pointer : option string;
  o_indent : option string;
  o_keys : option GenericPromptKeys;
  o_cbreak : option bool;
  o_prefix : option string
}.

(** [interface GenericPromptSettings]: the options with the defaults
    filled in. *)
Record GenericPromptSettings : Type := {
  s_message : string;
  s_default : JsValue;
  s_hideDefault : bool;
  s_validate : option (JsValue -> ValidateResult);
  s_transform : option (JsValue -> JsValue);
  s_hint : option string;
  s_pointer : string;
  s_indent : string;
  s_keys : option GenericPromptKeys;
  s_cbreak : bool;
  s_prefix : string
}.

(** What one call of [reader.read(buffer)] does: it stores [data] at the
    start of the buffer and resolves to its length, resolves to [null] at
    the end of the stream, or rejects. *)
Inductive ReadResult : Type :=
| ReadBytes (data : list Z)
| ReadNull
| ReadError (message : string).

(** What [Deno.consoleSize()] does: it returns an object whose [columns]
    may be missing, or throws when the output is no terminal. *)
Inductive ConsoleSize : Type :=
| ConsoleColumns (columns : option Z)
| ConsoleError.

(** The collaborators that are imported by the module and not defined in
    it: the colour helpers of [deps.ts], the glyphs of [figures.ts], the
    key decoder [parse], and the Deno run time ([isatty], [consoleSize],
    the successive results of [reader.read]). *)
Record Platform : Type := {
  bold : string -> string;
  brightBlue : string -> string;
  dim : string -> string;
  green : string -> string;
  italic : string -> string;
  red : string -> string;
  stripColor : string -> string;
  yellow : string -> string;
  POINTER_SMALL : string;
  POINTER : string;
  CROSS : string;
  parse : list Z -> list KeyCode;
  isatty : bool;
  consoleSize : ConsoleSize;
  reads : nat -> ReadResult
}.

(** The abstract members a concrete prompt supplies, with its settings. *)
Record Prompt : Type := {
  settings : GenericPromptSettings;
  transform : JsValue -> JsValue;
  validate : JsValue -> ValidateResult;
  format : JsValue -> string;
  getValue : JsValue;
  body : option (option string)
}.

(** ** Effects *)

Inductive Callee : Type :=
| SettingsValidate
| PromptValidate
| SettingsTransform
| PromptTransform.

Inductive Effect : Type :=
| CursorLeft
| EraseDown
| CursorShow
| CursorUp (rows : Z)
| CursorTo (column : Z)
| StdoutWrite (text : string)
| WriterWrite (text : string)
| SetRaw (mode : bool) (cbreak : option bool)
| ReaderRead
| Parse (data : list Z)
| Call (f : Callee) (argument : JsValue)
| ProcessExit (code : Z).

Record Cursor : Type := { x : Z; y : Z }.

(** The mutable state a prompt call works on. *)
Record World : Type := {
  injectedValue : JsValue;        (* static GenericPrompt.injectedValue *)
  value : JsValue;                (* #value *)
  lastError : option string;      (* #lastError *)
  isFirstRun : bool;              (* #isFirstRun *)
  cursor : Cursor;                (* cursor *)
  rawMode : bool;                 (* raw mode of the reader *)
  cursorVisible : bool;           (* whether the terminal shows the cursor *)
  readCount : nat;                (* reads performed so far *)
  trace : list Effect
}.

Definition set_injectedValue (v : JsValue) (w : World) : World :=
  {| injectedValue := v; value := value w; lastError := lastError w;
     isFirstRun := isFirstRun w; cursor := cursor w; rawMode := rawMode w;
     cursorVisible := cursorVisible w; readCount := readCount w;
     trace := trace w |}.

Definition set_value (v : JsValue) (w : World) : World :=
  {| injectedValue := injectedValue w; value := v; lastError := lastError w;
     isFirstRun := isFirstRun w; cursor := cursor w; rawMode := rawMode w;
     cursorVisible := cursorVisible w; readCount := readCount w;
     trace := trace w |}.

Definition set_lastError (e : option string) (w : World) : World :=
  {| injectedValue := injectedValue w; value := value w; lastError := e;
     isFirstRun := isFirstRun w; cursor := cursor w; rawMode := rawMode w;
     cursorVisible := cursorVisible w; readCount := readCount w;
     trace := trace w |}.

Definition set_isFirstRun (b : bool) (w : World) : World :=
  {| injectedValue := injectedValue w; value := value w;
     lastError := lastError w; isFirstRun := b; cursor := cursor w;
     rawMode := rawMode w; cursorVisible := cursorVisible w;
     readCount := readCount w; trace := trace w |}.

Definition set_rawMode (b : bool) (w : World) : World :=
  {| injectedValue := injectedValue w; value := value w;
     lastError := lastError w; isFirstRun := isFirstRun w;
     cursor := cursor w; rawMode := b; cursorVisible := cursorVisible w;
     readCount := readCount w; trace := trace w |}.

Definition set_cursorVisible (b : bool) (w : World) : World :=
  {| injectedValue := injectedValue w; value := value w;
     lastError := lastError w; isFirstRun := isFirstRun w;
     cursor := cursor w; rawMode := rawMode w; cursorVisible := b;
     readCount := readCount w; trace := trace w |}.

Definition set_readCount (n : nat) (w : World) : World :=
  {| injectedValue := injectedValue w; value := value w;
     lastError := lastError w; isFirstRun := isFirstRun w;
     cursor := cursor w; rawMode := rawMode w;
     cursorVisible := cursorVisible w; readCount := n; trace := trace w |}.

Definition log (e : Effect) (w : World) : World :=
  {| injectedValue := injectedValue w; value := value w;
     lastError := lastError w; isFirstRun := isFirstRun w;
     cursor := cursor w; rawMode := rawMode w;
     cursorVisible := cursorVisible w; readCount := readCount w;
     trace := trace w ++ [e] |}.

(** How a computation ends: it returns, it throws an [Error] with a
    message, the process exits, or (for the recursive loop only) the
    fuel of the model ran out before the promise settled. *)
Inductive Outcome (A : Type) : Type :=
| Returned (a : A)
| Thrown (message : string)
| Exited (code : Z)
| Unsettled.

Arguments Returned {A} a.
Arguments Thrown {A} message.
Arguments Exited {A} code.
Arguments Unsettled {A}.

Definition M (A : Type) : Type := World -> Outcome A * World.

Definition ret {A : Type} (a : A) : M A := fun w => (Returned a, w).

Definition bind {A B : Type} (m : M A) (k : A -> M B) : M B :=
  fun w =>
    match m w with
    | (Returned a, w') => k a w'
    | (Thrown e, w') => (Thrown e, w')
    | (Exited c, w') => (Exited c, w')
    | (Unsettled, w') => (Unsettled, w')
    end.

Definition throw {A : Type} (message : string) : M A :=
  fun w => (Thrown message, w).

Definition get : M World := fun w => (Returned w, w).

Definition modify (f : World -> World) : M unit :=
  fun w => (Returned tt, f w).

Definition emit (e : Effect) : M unit := modify (log e).

Definition when (b : bool) (m : M unit) : M unit :=
  if b then m else ret tt.

(** [try { m } finally { f }] where [f] neither throws nor exits.  A
    process exit runs no [finally] block. *)
Definition try_finally {A : Type} (m : M A) (f : World -> World) : M A :=
  fun w =>
    match m w with
    | (Returned a, w') => (Returned a, f w')
    | (Thrown e, w') => (Thrown e, f w')
    | (Exited c, w') => (Exited c, w')
    | (Unsettled, w') => (Unsettled, w')
    end.

Declare Scope prompt_scope.
Delimit Scope prompt_scope with prompt.
Notation "x <- m ;; k" := (bind m (fun x => k))
  (at level 61, m at next level, right associativity) : prompt_scope.
Notation "m ;; k" := (bind m (fun _ => k))
  (at level 61, right associativity) : prompt_scope.
Local Open Scope prompt_scope.

(** ** Strings and arrays of the JavaScript library *)

Definition newline : ascii := "010"%char.

(** [s.split("\n")] *)
Fixpoint split (s : string) : list string :=
  match s with
  | EmptyString => [EmptyString]
  | String c rest =>
      if Ascii.eqb c newline then EmptyString :: split rest
      else match split rest with
           | [] => [String c EmptyString]
           | line :: lines => String c line :: lines
           end
  end.

(** [parts.join("\n")] *)
Fixpoint join (parts : list string) : string :=
  match parts with
  | [] => ""
  | [p] => p
  | p :: ps => p ++ String newline (join ps)
  end.

(** [result.filter(Boolean)] on an array of [string | undefined]. *)
Fixpoint filter_Boolean (parts : list (option string)) : list string :=
  match parts with
  | [] => []
  | Some p :: ps =>
      if (p =? "")%string then filter_Boolean ps else p :: filter_Boolean ps
  | None :: ps => filter_Boolean ps
  end.

(** [keyNames.indexOf(k) !== -1] *)
Definition includes (keyNames : list string) (k : string) : bool :=
  existsb (String.eqb k) keyNames.

(** [Math.ceil(a / b)] on integers, for [b] other than zero. *)
Definition ceil_div (a b : Z) : Z := - ((- a) / b).

(** [new Uint8Array(8)] *)
Definition new_buffer : list Z := repeat 0 8.

(** The buffer after the reader stored [data] at its start. *)
Definition fill (buffer data : list Z) : list Z :=
  firstn (length buffer) (data ++ skipn (length data) buffer).

(** [buffer.subarray(0, n)] *)
Definition subarray (buffer : list Z) (n : nat) : list Z := firstn n buffer.

(** ** Settings *)

(** The object spread [{ ...base, ...over }] on key maps: an own property
    of [over] wins, also when it holds [undefined]. *)
Definition spread_keys (base over : GenericPromptKeys) : GenericPromptKeys :=
  {| k_submit := match k_submit over with
                 | Some property => Some property
                 | None => k_submit base
                 end |}.

Definition empty_keys : GenericPromptKeys := {| k_submit := None |}.

(** [a ?? b] *)
Definition nullish {A : Type} (a : option A) (b : A) : A :=
  match a with
  | Some v => v
  | None => b
  end.

Definition getDefaultSettings (P : Platform) (options : GenericPromptOptions)
  : GenericPromptSettings :=
  {| s_message := o_message options;
     s_default := o_default options;
     s_hideDefault := o_hideDefault options;
     s_validate := o_validate options;
     s_transform := o_transform options;
     s_hint := o_hint options;
     s_cbreak := nullish (o_cbreak options) false;
     s_pointer := nullish (o_pointer options) (brightBlue P (POINTER_SMALL P));
     s_prefix := nullish (o_prefix options) (yellow P "? ");
     s_indent := nullish (o_indent options) "";
     s_keys := Some (spread_keys
                       {| k_submit := Some (Some ["enter"; "return"]) |}
                       (nullish (o_keys options) empty_keys)) |}.

(** [keys?.[name]]: [GenericPromptKeys] has the one property [submit]. *)
Definition key_names (keys : option GenericPromptKeys) (key : string)
  : option (list string) :=
  match keys with
  | Some k =>
      if (key =? "submit")%string
      then match k_submit k with
           | Some (Some keyNames) => Some keyNames
           | _ => None
           end
      else None
  | None => None
  end.

Definition isKey (keys : option GenericPromptKeys) (key : string)
  (event : KeyCode) : bool :=
  match key_names keys key with
  | Some keyNames =>
      match name event with
      | Some n => includes keyNames n
      | None => false
      end
      || match sequence event with
         | Some s => includes keyNames s
         | None => false
         end
  | None => false
  end.

(** [getColumns()] *)
Definition getColumns (P : Platform) : option Z :=
  match consoleSize P with
  | ConsoleColumns columns => columns
  | ConsoleError => None
  end.

(** The contribution of one line of [length] printable characters to
    the line count of [render], the body of its [reduce] callback. *)
Definition wrapped (columns length : Z) : Z :=
  if length >? columns then ceil_div length columns else 1.

(** The [linesCount] of [render]. *)
Definition linesCount (P : Platform) (columns : option Z) (content : string)
  : Z :=
  let lines := split content in
  match columns with
  | Some c =>
      if negb (c =? 0)
      then fold_left
             (fun prev next =>
                let length := Z.of_nat (String.length (stripColor P next)) in
                prev + wrapped c length)
             lines 0
      else Z.of_nat (length (split content))
  | None => Z.of_nat (length (split content))
  end.

(** ** The methods of [GenericPrompt] *)

Section GenericPrompt.

Variable P : Platform.
Variable self : Prompt.

(** [GenericPrompt.inject(value)] *)
Definition inject (v : JsValue) : M unit := modify (set_injectedValue v).

Definition cursorShow : M unit :=
  emit CursorShow ;; modify (set_cursorVisible true).

Definition setRaw (mode : bool) (options : option bool) : M unit :=
  emit (SetRaw mode options) ;; modify (set_rawMode mode).

(** [Deno.exit(code)] never returns. *)
Definition exit (code : Z) : M unit :=
  fun w => (Exited code, log (ProcessExit code) w).

Definition clear : M unit := emit CursorLeft ;; emit EraseDown.

Definition defaults : string :=
  if defined (s_default (settings self)) && negb (s_hideDefault (settings self))
  then dim P (" (" ++ format self (s_default (settings self)) ++ ")")
  else "".

Definition message : string :=
  s_indent (settings self) ++ s_prefix (settings self)
  ++ bold P (s_message (settings self)) ++ defaults.

Definition success (v : JsValue) : string :=
  s_indent (settings self) ++ s_prefix (settings self)
  ++ bold P (s_message (settings self)) ++ defaults
  ++ " " ++ s_pointer (settings self)
  ++ " " ++ green P (format self v).

Definition error (w : World) : option string :=
  match lastError w with
  | Some e =>
      if negb (e =? "")%string
      then Some (s_indent (settings self) ++ red P (bold P (CROSS P ++ " ") ++ e))
      else None
  | None => None
  end.

Definition hint : option string :=
  match s_hint (settings self) with
  | Some h =>
      if negb (h =? "")%string
      then Some (s_indent (settings self)
                 ++ italic P (brightBlue P (dim P (POINTER P ++ " ") ++ h)))
      else None
  | None => None
  end.

Definition footer (w : World) : option string :=
  match error w with
  | Some e => Some e
  | None => hint
  end.

Definition render : M unit :=
  w <- get ;;
  let result := [Some message;
                 match body self with Some b => b | None => None end;
                 footer w] in
  let content := join (filter_Boolean result) in
  let columns := getColumns P in
  let count := linesCount P columns content in
  let y := count - y (cursor w) - 1 in
  when (negb (isFirstRun w) || truthy_string (lastError w)) clear ;;
  modify (set_isFirstRun false) ;;
  emit (StdoutWrite content) ;;
  when (negb (y =? 0)) (emit (CursorUp y)) ;;
  emit (CursorTo (x (cursor w))).

Definition transformValue (v : JsValue) : M JsValue :=
  match s_transform (settings self) with
  | Some f => emit (Call SettingsTransform v) ;; ret (f v)
  | None => emit (Call PromptTransform v) ;; ret (transform self v)
  end.

Definition validateValue (v : JsValue) : M unit :=
  if negb (truthy v) && defined (s_default (settings self))
  then modify (set_value (s_default (settings self)))
  else
    modify (set_value JUndefined) ;;
    modify (set_lastError None) ;;
    validation <- match s_validate (settings self) with
                  | Some f => emit (Call SettingsValidate v) ;; ret (f v)
                  | None => emit (Call PromptValidate v) ;; ret (validate self v)
                  end ;;
    match validation with
    | VBool false => modify (set_lastError (Some "Invalid answer."))
    | VString m => modify (set_lastError (Some m))
    | VBool true => t <- transformValue v ;; modify (set_value t)
    end.

Definition submit : M unit := validateValue (getValue self).

Definition handleEvent (event : KeyCode) : M unit :=
  if match name event with Some n => (n =? "c")%string | None => false end
     && ctrl event
  then clear ;; cursorShow ;; exit 130
  else if isKey (s_keys (settings self)) "submit" event
       then submit
       else ret tt.

(** [for (const event of events) await this.handleEvent(event)] *)
Fixpoint handleEvents (events : list KeyCode) : M unit :=
  match events with
  | [] => ret tt
  | event :: rest => handleEvent event ;; handleEvents rest
  end.

(** [await this.settings.reader.read(buffer)]: the number of bytes read
    (or [null]) and the buffer as the reader left it. *)
Definition reader_read (buffer : list Z) : M (option nat * list Z) :=
  w <- get ;;
  emit ReaderRead ;;
  modify (set_readCount (S (readCount w))) ;;
  match reads P (readCount w) with
  | ReadBytes data => ret (Some (length data), fill buffer data)
  | ReadNull => ret (None, buffer)
  | ReadError e => throw e
  end.

Definition readChar : M (list Z) :=
  let buffer := new_buffer in
  let isTty := isatty P in
  when isTty (setRaw true (Some (s_cbreak (settings self)))) ;;
  r <- reader_read buffer ;;
  let (nread, buffer) := (r : option nat * list Z) in
  when isTty (setRaw false None) ;;
  match nread with
  | None => ret buffer
  | Some n => ret (subarray buffer n)
  end.

Definition readKey : M (list KeyCode) :=
  data <- readChar ;;
  if negb (length data =? 0)%nat
  then emit (Parse data) ;; ret (parse P data)
  else ret [].

Definition read : M bool :=
  w <- get ;;
  if defined (injectedValue w)
  then validateValue (injectedValue w) ;;
       w' <- get ;; ret (defined (value w'))
  else
    events <- readKey ;;
    if (length events =? 0)%nat
    then ret false
    else handleEvents events ;;
         w' <- get ;; ret (defined (value w')).

(** [#execute], the recursion bounded by [fuel] loop iterations. *)
Fixpoint execute (fuel : nat) : M JsValue :=
  match fuel with
  | O => fun w => (Unsettled, w)
  | S fuel' =>
      w <- get ;;
      if defined (injectedValue w) && truthy_string (lastError w)
      then throw (nullish (error w) "")
      else
        render ;;
        modify (set_lastError None) ;;
        ok <- read ;;
        if negb ok
        then execute fuel'
        else
          w' <- get ;;
          if negb (defined (value w'))
          then throw "internal error: failed to read value"
          else
            clear ;;
            let successMessage := success (value w') in
            when (negb (successMessage =? "")%string)
                 (emit (WriterWrite (successMessage ++ String newline ""))) ;;
            modify (set_injectedValue JUndefined) ;;
            cursorShow ;;
            ret (value w')
  end.

(** [prompt()] *)
Definition prompt (fuel : nat) : M JsValue :=
  try_finally (execute fuel) (fun w => snd (cursorShow w)).

End GenericPrompt.

(** ** A concrete platform and prompt, for examples *)

(** Colours switched off (the helpers are then the identity), ASCII
    glyphs, and a decoder that maps each byte to one event. *)
Definition decode_byte (b : Z) : KeyCode :=
  if b =? 3 then
    {| name := Some "c"; sequence := Some (String "003"%char "");
       ctrl := true; meta := false; shift := false |}
  else if b =? 13 then
    {| name := Some "return"; sequence := Some (String "013"%char "");
       ctrl := false; meta := false; shift := false |}
  else if b =? 10 then
    {| name := Some "enter"; sequence := Some (String newline "");
       ctrl := false; meta := false; shift := false |}
  else
    {| name := Some (String (ascii_of_N (Z.to_N b)) "");
       sequence := Some (String (ascii_of_N (Z.to_N b)) "");
       ctrl := false; meta := false; shift := false |}.

Definition terminal (input : nat -> ReadResult) : Platform :=
  {| bold := fun s => s; brightBlue := fun s => s; dim := fun s => s;
     green := fun s => s; italic := fun s => s; red := fun s => s;
     stripColor := fun s => s; yellow := fun s => s;
     POINTER_SMALL := ">"; POINTER := ">"; CROSS := "x";
     parse := map decode_byte;
     isatty := true;
     consoleSize := ConsoleColumns (Some 80);
     reads := input |}.

Definition options_of (message : string) : GenericPromptOptions :=
  {| o_message := message; o_default := JUndefined; o_hideDefault := false;
     o_validate := None; o_transform := None; o_hint := None;
     o_pointer := None; o_indent := None; o_keys := None; o_cbreak := None;
     o_prefix := None |}.

Definition show (v : JsValue) : string :=
  match v with
  | JString s => s
  | _ => ""
  end.

(** A text prompt: the raw value is [typed], the built-in validator
    accepts everything and the built-in transform is the identity. *)
Definition text_prompt (s : GenericPromptSettings) (typed : JsValue) : Prompt :=
  {| settings := s; transform := fun v => v; validate := fun _ => VBool true;
     format := show; getValue := typed; body := None |}.

Definition fresh : World :=
  {| injectedValue := JUndefined; value := JUndefined; lastError := None;
     isFirstRun := true; cursor := {| x := 0; y := 0 |}; rawMode := false;
     cursorVisible := true; readCount := 0; trace := [] |}.

Definition never (_ : nat) : ReadResult := ReadNull.

(** ** Vocabulary of the specification *)

(** The error message is set: [this.#lastError] passes the test the class
    applies to it everywhere ([this.#lastError ? _ : _], [_ && this.#lastError]). *)
Definition error_set (w : World) : bool := truthy_string (lastError w).

(** The resolved value is set: [typeof this.#value !== "undefined"]. *)
Definition value_set (w : World) : bool := defined (value w).

(** The state holds exactly one of: an error message, a resolved value. *)
Definition exactly_one (w : World) : Prop :=
  xorb (error_set w) (value_set w) = true.

(** The default short-circuit of the validation pipeline is taken. *)
Definition short_circuit (self : Prompt) (v : JsValue) : bool :=
  negb (truthy v) && defined (s_default (settings self)).

(** The validator the pipeline runs: the caller's if present, else the
    prompt's own; likewise for the transform. *)
Definition chosen_validate (self : Prompt) : JsValue -> ValidateResult :=
  match s_validate (settings self) with
  | Some f => f
  | None => validate self
  end.

Definition chosen_transform (self : Prompt) : JsValue -> JsValue :=
  match s_transform (settings self) with
  | Some f => f
  | None => transform self
  end.

Definition validate_callee (self : Prompt) : Callee :=
  match s_validate (settings self) with
  | Some _ => SettingsValidate
  | None => PromptValidate
  end.

Definition transform_callee (self : Prompt) : Callee :=
  match s_transform (settings self) with
  | Some _ => SettingsTransform
  | None => PromptTransform
  end.

(** The effect is a call of a validator or of a transform. *)
Definition is_call (e : Effect) : bool :=
  match e with
  | Call _ _ => true
  | _ => false
  end.

(** The text of the error line for the message [e], as [error()] builds it. *)
Definition error_line (P : Platform) (self : Prompt) (e : string) : string :=
  s_indent (settings self) ++ red P (bold P (CROSS P ++ " ") ++ e).

(** The instance a new [prompt()] call works on: fresh private fields,
    the same static slot and terminal. *)
Definition new_instance (w : World) : World :=
  {| injectedValue := injectedValue w; value := JUndefined; lastError := None;
     isFirstRun := true; cursor := {| x := 0; y := 0 |};
     rawMode := rawMode w; cursorVisible := cursorVisible w;
     readCount := readCount w; trace := trace w |}.

(** The printable length of a line of the rendered content. *)
Definition printable_length (P : Platform) (line : string) : Z :=
  Z.of_nat (String.length (stripColor P line)).

(** The sum of a list of numbers. *)
Definition total (l : list Z) : Z := fold_right Z.add 0 l.

(** The answer of a validator as an error message, if it is one. *)
Definition rejection (r : ValidateResult) : option string :=
  match r with
  | VBool false => Some "Invalid answer."
  | VString m => Some m
  | VBool true => None
  end.

(** The world after the validating path of the pipeline, by the answer of
    the validator. *)
Definition validated (self : Prompt) (v : JsValue) (w : World) : World :=
  let w1 := log (Call (validate_callee self) v)
                (set_lastError None (set_value JUndefined w)) in
  match chosen_validate self v with
  | VBool false => set_lastError (Some "Invalid answer.") w1
  | VString m => set_lastError (Some m) w1
  | VBool true =>
      set_value (chosen_transform self v)
                (log (Call (transform_callee self) v) w1)
  end.

(** The examples of the specification: a prompt "Name" with the default
    "Ann", and one whose validator answers "too short" to the input "a". *)
Definition ann_options : GenericPromptOptions :=
  {| o_message := "Name"; o_default := JString "Ann"; o_hideDefault := false;
     o_validate := None; o_transform := None; o_hint := None;
     o_pointer := None; o_indent := None; o_keys := None; o_cbreak := None;
     o_prefix := None |}.

Definition at_least_two (v : JsValue) : ValidateResult :=
  match v with
  | JString s => if (String.length s <? 2)%nat then VString "too short"
                 else VBool true
  | _ => VBool false
  end.

Definition strict_options : GenericPromptOptions :=
  {| o_message := "Name"; o_default := JUndefined; o_hideDefault := false;
     o_validate := Some at_least_two; o_transform := None; o_hint := None;
     o_pointer := None; o_indent := None; o_keys := None; o_cbreak := None;
     o_prefix := None |}.

(** The caller rebinds submit to the key "y". *)
Definition y_options : GenericPromptOptions :=
  {| o_message := "Continue"; o_default := JUndefined; o_hideDefault := false;
     o_validate := None; o_transform := None; o_hint := None;
     o_pointer := None; o_indent := None;
     o_keys := Some {| k_submit := Some (Some ["y"]) |};
     o_cbreak := None; o_prefix := None |}.

Definition console : Platform := terminal never.

Definition ann_prompt : Prompt :=
  text_prompt (getDefaultSettings console ann_options) (JString "").

Definition strict_prompt : Prompt :=
  text_prompt (getDefaultSettings console strict_options) (JString "a").

(** A prompt whose transform maps every input to [undefined]. *)
Definition blank_prompt : Prompt :=
  {| settings := getDefaultSettings console (options_of "Name");
     transform := fun _ => JUndefined; validate := fun _ => VBool true;
     format := show; getValue := JString "a"; body := None |}.

(** A reader that resolves every read with zero bytes, and one on which
    the user types "a", return and then ctrl+c in one chunk. *)
Definition silent (_ : nat) : ReadResult := ReadBytes [].

Definition interrupted (_ : nat) : ReadResult := ReadBytes [97; 13; 3; 13].

(** The world after the success branch of [#execute], entered in [w]. *)
Definition finish (P : Platform) (self : Prompt) (w : World) : World :=
  let w1 := log EraseDown (log CursorLeft w) in
  let w2 := if negb (success P self (value w) =? "")%string
            then log (WriterWrite (success P self (value w)
                                   ++ String newline "")) w1
            else w1 in
  set_cursorVisible true (log CursorShow (set_injectedValue JUndefined w2)).

(** The process exit of the interrupt: status 130, the cursor visible,
    and the trace ends with the erasure of the render, the cursor being
    shown, and the exit, in this order. *)
Definition interrupt_exit (c : Z) (w : World) : Prop :=
  c = 130 /\ cursorVisible w = true
  /\ exists t, trace w
               = (t ++ [CursorLeft; EraseDown; CursorShow; ProcessExit 130])%list.

(** ** Further members and vocabulary *)

(** [setErrorMessage(message)] *)
Definition setErrorMessage (message : string) : M unit :=
  modify (set_lastError (Some message)).

(** The event passes the first case of [handleEvent]: the interrupt
    combination. *)
Definition is_interrupt (event : KeyCode) : bool :=
  match name event with
  | Some n => (n =? "c")%string
  | None => false
  end && ctrl event.

(** The event passes neither case of [handleEvent]. *)
Definition ignored (self : Prompt) (event : KeyCode) : bool :=
  negb (is_interrupt event)
  && negb (isKey (s_keys (settings self)) "submit" event).

(** The value the validation pipeline leaves in [#value] for the
    candidate [v]. *)
Definition resolved (self : Prompt) (v : JsValue) : JsValue :=
  if short_circuit self v then s_default (settings self)
  else match chosen_validate self v with
       | VBool true => chosen_transform self v
       | _ => JUndefined
       end.

(** The effect touches the input source: a raw-mode switch, a read, or
    a decoding of what was read. *)
Definition input_effect (e : Effect) : bool :=
  match e with
  | SetRaw _ _ | ReaderRead | Parse _ => true
  | _ => false
  end.

(** The events [#readKey] returns when the read resolves as [r]. *)
Definition delivered (P : Platform) (r : ReadResult) : list KeyCode :=
  match r with
  | ReadBytes [] => []
  | ReadBytes data => parse P data
  | ReadNull => parse P new_buffer
  | ReadError _ => []
  end.

(** The content [render] writes in the state [w]. *)
Definition rendered (P : Platform) (self : Prompt) (w : World) : string :=
  join (filter_Boolean
          [Some (message P self);
           match body self with Some b => b | None => None end;
           footer P self w]).

(** Options that only pass a [keys] object. *)
Definition keys_options (keys : GenericPromptKeys) : GenericPromptOptions :=
  {| o_message := "Name"; o_default := JUndefined; o_hideDefault := false;
     o_validate := None; o_transform := None; o_hint := None;
     o_pointer := None; o_indent := None; o_keys := Some keys;
     o_cbreak := None; o_prefix := None |}.

(** A reader that is no terminal, with no console size. *)
Definition pipe (input : nat -> ReadResult) : Platform :=
  {| bold := fun s => s; brightBlue := fun s => s; dim := fun s => s;
     green := fun s => s; italic := fun s => s; red := fun s => s;
     stripColor := fun s => s; yellow := fun s => s;
     POINTER_SMALL := ">"; POINTER := ">"; CROSS := "x";
     parse := map decode_byte;
     isatty := false;
     consoleSize := ConsoleError;
     reads := input |}.

(** A step that leaves the input source alone. *)
Definition quiet (w w' : World) : Prop :=
  readCount w' = readCount w
  /\ rawMode w' = rawMode w
  /\ filter input_effect (trace w') = filter input_effect (trace w).


(** A user who types "ab" and return, in one chunk. *)
Definition typed_ab (_ : nat) : ReadResult := ReadBytes [97; 98; 13].

(** A prompt whose validator answers the empty string. *)
Definition mute_prompt : Prompt :=
  {| settings := getDefaultSettings console (options_of "Name");
     transform := fun v => v; validate := fun _ => VString "";
     format := show; getValue := JString "a"; body := None |}.

(** A user who types "a" and return, in one chunk. *)
Definition typed_a (_ : nat) : ReadResult := ReadBytes [97; 13].

(** The string holds no newline. *)
Fixpoint single_line (s : string) : bool :=
  match s with
  | EmptyString => true
  | String c rest => negb (Ascii.eqb c newline) && single_line rest
  end.

(** A user who types "ab", return and then ctrl+c, in one chunk. *)
Definition typed_ab_interrupt (_ : nat) : ReadResult :=
  ReadBytes [97; 98; 13; 3].

(** * Properties *)

(** ** The validation pipeline *)

(** The first scenario of the specification: message "Name", default
    "Ann", the empty raw input.  The call resolves to "Ann", the success
    line shows it, and no error is set. *)
Example prompt_name_ann :
  prompt console ann_prompt 1 (snd (inject (JString "") fresh))
  = (Returned (JString "Ann"),
     {| injectedValue := JUndefined; value := JString "Ann";
        lastError := None; isFirstRun := false;
        cursor := {| x := 0; y := 0 |}; rawMode := false;
        cursorVisible := true; readCount := 0;
        trace := [StdoutWrite "? Name (Ann)"; CursorTo 0;
                  CursorLeft; EraseDown;
                  WriterWrite ("? Name (Ann) > Ann" ++ String newline "");
                  CursorShow; CursorShow] |}).
Proof. reflexivity. Qed.

Section Validation.

Variable P : Platform.
Variable self : Prompt.

Lemma validateValue_default (v : JsValue) (w : World) :
  short_circuit self v = true ->
  validateValue self v w = (Returned tt, set_value (s_default (settings self)) w).
Proof.
  unfold short_circuit, validateValue. intros ->. reflexivity.
Qed.

Lemma validateValue_validating (v : JsValue) (w : World) :
  short_circuit self v = false ->
  validateValue self v w = (Returned tt, validated self v w).
Proof.
  unfold short_circuit, validateValue, validated, chosen_validate,
    chosen_transform, validate_callee, transform_callee, transformValue.
  intros ->.
  destruct (s_validate (settings self)) as [f|];
    destruct (s_transform (settings self)) as [g|];
    unfold bind, modify, emit, ret; cbn;
    match goal with
    | |- context [match ?r with VBool _ => _ | VString _ => _ end] =>
        destruct r as [[|]|m]
    end; reflexivity.
Qed.

Lemma validateValue_returns (v : JsValue) (w : World) :
  validateValue self v w = (Returned tt, snd (validateValue self v w)).
Proof.
  destruct (short_circuit self v) eqn:E.
  - rewrite validateValue_default by exact E. reflexivity.
  - rewrite validateValue_validating by exact E. reflexivity.
Qed.

End Validation.

(** C2.  With a default value [d] configured, an empty or absent raw
    value (one that is falsy) resolves to [d] and the pipeline performs
    no effect at all: the trace is unchanged, so neither the caller's nor
    the prompt's validator or transform is called.  This is what [submit]
    does with an empty typed value and what [read] does with an empty
    injected value. *)
Theorem validateValue_default_bypasses_validators
  (P : Platform) (self : Prompt) (v : JsValue) (w : World) :
  truthy v = false ->
  defined (s_default (settings self)) = true ->
  validateValue self v w = (Returned tt, set_value (s_default (settings self)) w)
  /\ value (snd (validateValue self v w)) = s_default (settings self)
  /\ trace (snd (validateValue self v w)) = trace w
  /\ (getValue self = v ->
      submit self w = (Returned tt, set_value (s_default (settings self)) w))
  /\ (injectedValue w = v -> defined v = true ->
      read P self w = (Returned true, set_value (s_default (settings self)) w)).
Proof.
  intros Hv Hd.
  assert (E : short_circuit self v = true)
    by (unfold short_circuit; rewrite Hv, Hd; reflexivity).
  pose proof (validateValue_default self v w E) as H.
  rewrite H. cbn [snd].
  repeat split.
  - intros <-. exact H.
  - intros Hi Hdef. unfold read, bind, get, ret. rewrite Hi, Hdef, H.
    cbn. rewrite Hd. reflexivity.
Qed.

Lemma validateValue_default_bypasses_validators_witness :
  value (snd (validateValue ann_prompt (JString "") fresh)) = JString "Ann"
  /\ trace (snd (validateValue ann_prompt (JString "") fresh)) = [].
Proof.
  pose proof (validateValue_default_bypasses_validators console ann_prompt
                (JString "") fresh eq_refl eq_refl) as H.
  split; [exact (proj1 (proj2 H)) | exact (proj1 (proj2 (proj2 H)))].
Defined.

(** C3.  For a candidate value that is not taken by the default
    short-circuit: the answer [false] sets the error "Invalid answer.", a
    string answer is stored verbatim as the error, and the answer [true]
    runs the transform (the caller's if present, else the prompt's own)
    and stores its result as the resolved value.  The validator asked is
    the caller's if present, else the prompt's own. *)
Theorem validateValue_interprets_validation
  (self : Prompt) (v : JsValue) (w : World) :
  short_circuit self v = false ->
  let w' := snd (validateValue self v w) in
  (chosen_validate self v = VBool false ->
   lastError w' = Some "Invalid answer." /\ value w' = JUndefined
   /\ trace w' = (trace w ++ [Call (validate_callee self) v])%list)
  /\ (forall m, chosen_validate self v = VString m ->
      lastError w' = Some m /\ value w' = JUndefined
      /\ trace w' = (trace w ++ [Call (validate_callee self) v])%list)
  /\ (chosen_validate self v = VBool true ->
      value w' = chosen_transform self v /\ lastError w' = None
      /\ trace w' = (trace w ++ [Call (validate_callee self) v;
                                 Call (transform_callee self) v])%list).
Proof.
  intros E w'. subst w'.
  rewrite (validateValue_validating self v w E). cbn [snd].
  unfold validated.
  split; [| split].
  - intros ->. cbn. repeat split.
  - intros m ->. cbn. repeat split.
  - intros ->. cbn. repeat split.
    rewrite <- app_assoc. reflexivity.
Qed.

Lemma validateValue_interprets_validation_witness :
  lastError (snd (validateValue strict_prompt (JString "a") fresh))
  = Some "too short".
Proof.
  exact (proj1 (proj1 (proj2 (validateValue_interprets_validation
                                strict_prompt (JString "a") fresh eq_refl))
                      "too short" eq_refl)).
Defined.

(** C1, the claim as stated fails.  When the validator accepts and the
    transform returns [undefined], the state holds neither an error nor
    a value; when the default is accepted while an error is pending, the
    error is not cleared and the state holds both. *)
Lemma validateValue_not_exactly_one :
  ~ exactly_one (snd (validateValue blank_prompt (JString "a") fresh))
  /\ ~ exactly_one (snd (validateValue ann_prompt (JString "")
                           (set_lastError (Some "too short") fresh)))
  /\ lastError (snd (validateValue ann_prompt (JString "")
                       (set_lastError (Some "too short") fresh)))
     = Some "too short".
Proof.
  unfold exactly_one. cbn. repeat split; discriminate.
Qed.

(** C1, amended.  On the validating path the previous value and error are
    cleared first: the error afterwards is the one this attempt produced
    and nothing else, the state never holds both an error and a value,
    and it holds exactly one of them unless the validator accepted and
    the transform returned [undefined], or the validator answered the
    empty string.  On the default short-circuit the value is the default,
    and exactly one of the two holds when no error was pending on
    entry. *)
Theorem validateValue_error_or_value
  (self : Prompt) (v : JsValue) (w : World) :
  let w' := snd (validateValue self v w) in
  (short_circuit self v = false ->
   lastError w' = rejection (chosen_validate self v)
   /\ error_set w' && value_set w' = false
   /\ (exactly_one w' <->
       (exists e, rejection (chosen_validate self v) = Some e /\ e <> "")
       \/ (chosen_validate self v = VBool true
           /\ defined (chosen_transform self v) = true)))
  /\ (short_circuit self v = true ->
      value w' = s_default (settings self)
      /\ (error_set w = false -> exactly_one w')).
Proof.
  intros w'. subst w'. split; intros E.
  - rewrite (validateValue_validating self v w E). cbn [snd].
    unfold validated, exactly_one, error_set, value_set.
    destruct (chosen_validate self v) as [[|]|m]; cbn.
    + repeat split.
      * intros H. right. split; [reflexivity | exact H].
      * intros [[e [H _]] | [_ H]]; [discriminate | exact H].
    + repeat split. intros _. left. exists "Invalid answer.".
      split; [reflexivity | discriminate].
    + destruct (String.eqb_spec m ""); cbn.
      * subst m. repeat split; try discriminate.
        intros [[e [H Hne]] | [H _]]; [| discriminate].
        injection H as <-. contradiction.
      * repeat split; try (rewrite andb_false_r; reflexivity).
        intros _. left. exists m. split; [reflexivity | assumption].
  - rewrite (validateValue_default self v w E). cbn [snd].
    split; [reflexivity |].
    unfold exactly_one, error_set, value_set. cbn. intros ->.
    unfold short_circuit in E. apply andb_prop in E. destruct E as [_ ->].
    reflexivity.
Qed.

Lemma validateValue_error_or_value_witness :
  exactly_one (snd (validateValue strict_prompt (JString "a") fresh))
  /\ exactly_one (snd (validateValue ann_prompt (JString "") fresh)).
Proof.
  split.
  - apply (proj1 (validateValue_error_or_value strict_prompt (JString "a")
                    fresh) eq_refl).
    left. exists "too short". split; [reflexivity | discriminate].
  - apply (proj2 (validateValue_error_or_value ann_prompt (JString "")
                    fresh) eq_refl).
    reflexivity.
Defined.

(** ** Settings and key bindings *)

Lemma includes_In (keyNames : list string) (k : string) :
  includes keyNames k = true <-> In k keyNames.
Proof.
  unfold includes. rewrite existsb_exists. split.
  - intros [k' [Hin Heq]]. apply String.eqb_eq in Heq. subst. exact Hin.
  - intros Hin. exists k. split; [exact Hin | apply String.eqb_refl].
Qed.

(** C7.  A [keys] option with a [submit] array replaces the default
    submit bindings: the settings then hold exactly the caller's array.
    With [submit] overridden to ["y"], an event named "enter" or "return"
    (whose sequence is not "y") does not match the submit binding and
    [handleEvent] does nothing with it.  Without a [keys] option the
    submit binding is exactly ["enter"; "return"]. *)
Theorem keys_option_replaces_submit
  (P : Platform) (options : GenericPromptOptions) :
  (forall keyNames,
      o_keys options = Some {| k_submit := Some (Some keyNames) |} ->
      s_keys (getDefaultSettings P options)
      = Some {| k_submit := Some (Some keyNames) |})
  /\ (o_keys options = Some {| k_submit := Some (Some ["y"]) |} ->
      key_names (s_keys (getDefaultSettings P options)) "submit" = Some ["y"]
      /\ forall event,
          name event = Some "enter" \/ name event = Some "return" ->
          sequence event <> Some "y" ->
          isKey (s_keys (getDefaultSettings P options)) "submit" event = false
          /\ forall self w,
              settings self = getDefaultSettings P options ->
              handleEvent self event w = (Returned tt, w))
  /\ (o_keys options = None ->
      key_names (s_keys (getDefaultSettings P options)) "submit"
      = Some ["enter"; "return"]).
Proof.
  split; [| split].
  - intros keyNames H. unfold getDefaultSettings. cbn. rewrite H. reflexivity.
  - intros H. unfold getDefaultSettings. cbn [s_keys]. rewrite H.
    split; [reflexivity |].
    intros event Hname Hseq.
    assert (Hkey : isKey (Some (spread_keys
                            {| k_submit := Some (Some ["enter"; "return"]) |}
                            (nullish (Some {| k_submit := Some (Some ["y"]) |})
                                     empty_keys)))
                         "submit" event = false).
    { unfold isKey. cbn.
      destruct Hname as [-> | ->]; cbn;
        destruct (sequence event) as [s|]; try reflexivity; cbn;
        destruct (String.eqb_spec s "y"); try reflexivity;
        subst; contradiction. }
    split; [exact Hkey |].
    intros self w Hs. unfold handleEvent.
    rewrite Hs. cbn [s_keys]. rewrite Hkey.
    destruct Hname as [-> | ->]; reflexivity.
  - intros H. unfold getDefaultSettings. cbn. rewrite H. reflexivity.
Qed.

Lemma keys_option_replaces_submit_witness :
  isKey (s_keys (getDefaultSettings console y_options)) "submit"
        (decode_byte 10) = false
  /\ key_names (s_keys (getDefaultSettings console ann_options)) "submit"
     = Some ["enter"; "return"].
Proof.
  pose proof (keys_option_replaces_submit console y_options) as Hy.
  pose proof (keys_option_replaces_submit console ann_options) as Ha.
  split.
  - apply (proj2 (proj1 (proj2 Hy) eq_refl) (decode_byte 10)).
    + left. reflexivity.
    + discriminate.
  - exact (proj2 (proj2 Ha) eq_refl).
Defined.

(** ** Line counting in [render] *)

Lemma fold_left_total {A : Type} (f : A -> Z) (l : list A) (a : Z) :
  fold_left (fun prev next => prev + f next) l a = a + total (map f l).
Proof.
  unfold total. revert a. induction l as [|line l IH]; intros a; cbn.
  - lia.
  - rewrite IH. lia.
Qed.

Lemma ceil_div_bounds (L W : Z) :
  0 < W -> W * (ceil_div L W - 1) < L <= W * ceil_div L W.
Proof.
  intros HW. unfold ceil_div.
  pose proof (Z.mul_div_le (- L) W HW) as Hle.
  pose proof (Z.mul_succ_div_gt (- L) W HW) as Hgt.
  remember ((- L) / W) as q. lia.
Qed.



(** ** The read cycle *)

Section ReadCycle.

Variable P : Platform.
Variable self : Prompt.

Lemma subarray_fill (data : list Z) :
  (length data <= 8)%nat ->
  subarray (fill new_buffer data) (length data) = data.
Proof.
  intros Hlen. unfold subarray, fill.
  rewrite firstn_firstn.
  replace (Nat.min (length data) (length new_buffer)) with (length data)
    by (cbn; lia).
  rewrite firstn_app, Nat.sub_diag, firstn_all. cbn.
  apply app_nil_r.
Qed.

(** A read that resolves, on a terminal: raw mode is switched on, the
    read is issued, raw mode is switched off. *)
Lemma readChar_terminal_resolves (w : World) :
  isatty P = true ->
  (forall e, reads P (readCount w) <> ReadError e) ->
  readChar P self w
  = (Returned match reads P (readCount w) with
              | ReadBytes data => subarray (fill new_buffer data) (length data)
              | _ => new_buffer
              end,
     set_rawMode false
       (log (SetRaw false None)
          (set_readCount (S (readCount w))
             (log ReaderRead
                (set_rawMode true
                   (log (SetRaw true (Some (s_cbreak (settings self)))) w)))))).
Proof.
  intros Htty Hok.
  unfold readChar, reader_read, setRaw, when, bind, get, modify, emit, ret.
  rewrite Htty. cbn.
  destruct (reads P (readCount w)) as [data| |e]; try reflexivity.
  exfalso. exact (Hok e eq_refl).
Qed.

(** A read that rejects, on a terminal: the error leaves [readChar]
    before raw mode is switched off. *)
Lemma readChar_terminal_rejects (w : World) (e : string) :
  isatty P = true ->
  reads P (readCount w) = ReadError e ->
  readChar P self w
  = (Thrown e,
     set_readCount (S (readCount w))
       (log ReaderRead
          (set_rawMode true
             (log (SetRaw true (Some (s_cbreak (settings self)))) w)))).
Proof.
  intros Htty Herr.
  unfold readChar, reader_read, setRaw, when, bind, get, modify, emit, ret,
    throw.
  rewrite Htty. cbn. rewrite Herr. reflexivity.
Qed.

Lemma readChar_null (w : World) :
  reads P (readCount w) = ReadNull ->
  fst (readChar P self w) = Returned new_buffer.
Proof.
  intros Hnull.
  unfold readChar, reader_read, setRaw, when, bind, get, modify, emit, ret.
  destruct (isatty P); cbn; rewrite Hnull; reflexivity.
Qed.

Lemma readChar_bytes (w : World) (data : list Z) :
  reads P (readCount w) = ReadBytes data ->
  (length data <= 8)%nat ->
  fst (readChar P self w) = Returned data.
Proof.
  intros Hdata Hlen.
  unfold readChar, reader_read, setRaw, when, bind, get, modify, emit, ret.
  destruct (isatty P); cbn -[subarray fill]; rewrite Hdata; cbn [fst];
    f_equal; exact (subarray_fill data Hlen).
Qed.

Lemma readKey_of_readChar (w : World) (data : list Z) :
  fst (readChar P self w) = Returned data ->
  readKey P self w
  = match data with
    | [] => (Returned [], snd (readChar P self w))
    | _ => (Returned (parse P data), log (Parse data) (snd (readChar P self w)))
    end.
Proof.
  unfold readKey, bind. destruct (readChar P self w) as [o w1]. cbn.
  intros ->. destruct data; reflexivity.
Qed.

End ReadCycle.

(** C8, the claim as stated fails.  On a terminal whose read rejects,
    [readChar] ends by the thrown error with raw mode still on: the trace
    holds the switch to raw mode and the read, and no switch back. *)
Lemma readChar_failed_read_keeps_raw_mode :
  let P := terminal (fun _ => ReadError "Interrupted") in
  let r := readChar P ann_prompt fresh in
  fst r = Thrown "Interrupted"
  /\ rawMode (snd r) = true
  /\ trace (snd r) = [SetRaw true (Some false); ReaderRead].
Proof.
  cbn. repeat split.
Qed.

(** C8, amended.  On an interactive terminal, every read attempt whose
    read call resolves (with bytes, with zero bytes or with the end of
    the stream) switches raw mode on immediately before the read call and
    off immediately after it, and returns with raw mode off. *)
Theorem readChar_scopes_raw_mode
  (P : Platform) (self : Prompt) (w : World) :
  isatty P = true ->
  (forall e, reads P (readCount w) <> ReadError e) ->
  (exists data, fst (readChar P self w) = Returned data)
  /\ trace (snd (readChar P self w))
     = (trace w ++ [SetRaw true (Some (s_cbreak (settings self)));
                    ReaderRead; SetRaw false None])%list
  /\ rawMode (snd (readChar P self w)) = false.
Proof.
  intros Htty Hok.
  rewrite (readChar_terminal_resolves P self w Htty Hok). cbn.
  repeat split.
  - eexists. reflexivity.
  - rewrite <- !app_assoc. reflexivity.
Qed.

Lemma readChar_scopes_raw_mode_witness :
  trace (snd (readChar (terminal silent) ann_prompt fresh))
  = [SetRaw true (Some false); ReaderRead; SetRaw false None]
  /\ rawMode (snd (readChar (terminal silent) ann_prompt fresh)) = false.
Proof.
  assert (Hok : forall e,
             reads (terminal silent) (readCount fresh) <> ReadError e)
    by (intros e; discriminate).
  exact (proj2 (readChar_scopes_raw_mode (terminal silent) ann_prompt fresh
                  eq_refl Hok)).
Defined.

(** C10.  When the read resolves to [null], [readChar] returns the whole
    buffer of eight zero bytes, so [readKey] hands these eight bytes to
    the key decoder and returns what it decodes; [read] then dispatches
    the decoded events.  A read of [n] bytes returns exactly these
    bytes, and [readKey] returns the empty event list without calling the
    decoder exactly when [n] is zero; [read] then returns [false]. *)
Theorem readKey_null_decodes_buffer
  (P : Platform) (self : Prompt) (w : World) :
  (reads P (readCount w) = ReadNull ->
   fst (readChar P self w) = Returned [0; 0; 0; 0; 0; 0; 0; 0]
   /\ readKey P self w
      = (Returned (parse P [0; 0; 0; 0; 0; 0; 0; 0]),
         log (Parse [0; 0; 0; 0; 0; 0; 0; 0]) (snd (readChar P self w)))
   /\ (defined (injectedValue w) = false ->
       parse P [0; 0; 0; 0; 0; 0; 0; 0] <> [] ->
       read P self w
       = (handleEvents self (parse P [0; 0; 0; 0; 0; 0; 0; 0]) ;;
          w' <- get ;; ret (defined (value w')))
           (log (Parse [0; 0; 0; 0; 0; 0; 0; 0]) (snd (readChar P self w)))))
  /\ (forall data,
        reads P (readCount w) = ReadBytes data ->
        (length data <= 8)%nat ->
        fst (readChar P self w) = Returned data
        /\ (data = [] ->
            readKey P self w = (Returned [], snd (readChar P self w))
            /\ (defined (injectedValue w) = false ->
                read P self w = (Returned false, snd (readChar P self w))))
        /\ (data <> [] ->
            readKey P self w
            = (Returned (parse P data),
               log (Parse data) (snd (readChar P self w))))).
Proof.
  split.
  - intros Hnull.
    pose proof (readChar_null P self w Hnull) as Hc.
    pose proof (readKey_of_readChar P self w _ Hc) as Hk. cbn in Hk.
    split; [exact Hc | split; [exact Hk |]].
    intros Hinj Hev. unfold read at 1. unfold bind at 1, get at 1.
    rewrite Hinj. unfold bind at 1. rewrite Hk.
    destruct (parse P [0; 0; 0; 0; 0; 0; 0; 0]) as [|event events];
      [contradiction | reflexivity].
  - intros data Hdata Hlen.
    pose proof (readChar_bytes P self w data Hdata Hlen) as Hc.
    pose proof (readKey_of_readChar P self w _ Hc) as Hk.
    split; [exact Hc | split].
    + intros ->. split; [exact Hk |].
      intros Hinj. unfold read, bind at 1, get at 1.
      rewrite Hinj. unfold bind at 1. rewrite Hk. reflexivity.
    + intros Hne. destruct data; [contradiction | exact Hk].
Qed.

Lemma readKey_null_decodes_buffer_witness :
  fst (readKey console ann_prompt fresh)
  = Returned (map decode_byte [0; 0; 0; 0; 0; 0; 0; 0])
  /\ fst (readKey (terminal silent) ann_prompt fresh) = Returned [].
Proof.
  pose proof (readKey_null_decodes_buffer console ann_prompt fresh) as Hn.
  pose proof (readKey_null_decodes_buffer (terminal silent) ann_prompt fresh)
    as Hs.
  split.
  - rewrite (proj1 (proj2 (proj1 Hn eq_refl))). reflexivity.
  - assert (Hlen : (length (@nil Z) <= 8)%nat) by (cbn; lia).
    rewrite (proj1 (proj1 (proj2 (proj2 Hs [] eq_refl Hlen)) eq_refl)).
    reflexivity.
Defined.

(** ** The execute loop *)

Section Loop.

Variable P : Platform.
Variable self : Prompt.

Lemma render_returns (w : World) :
  render P self w = (Returned tt, snd (render P self w)).
Proof.
  unfold render, when, clear, bind, get, modify, emit, ret.
  destruct (negb (isFirstRun w) || truthy_string (lastError w));
    match goal with
    | |- context [negb (?y =? 0)] => destruct (negb (y =? 0))
    end; reflexivity.
Qed.

Lemma render_preserves (w : World) :
  injectedValue (snd (render P self w)) = injectedValue w
  /\ value (snd (render P self w)) = value w
  /\ lastError (snd (render P self w)) = lastError w.
Proof.
  unfold render, when, clear, bind, get, modify, emit, ret.
  destruct (negb (isFirstRun w) || truthy_string (lastError w));
    match goal with
    | |- context [negb (?y =? 0)] => destruct (negb (y =? 0))
    end; repeat split.
Qed.

Lemma validateValue_preserves_slot (v : JsValue) (w : World) :
  injectedValue (snd (validateValue self v w)) = injectedValue w.
Proof.
  destruct (short_circuit self v) eqn:E.
  - rewrite validateValue_default by exact E. reflexivity.
  - rewrite validateValue_validating by exact E. unfold validated.
    destruct (chosen_validate self v) as [[|]|m]; reflexivity.
Qed.

(** One iteration of [#execute], by the result of its [read]. *)
Lemma execute_step (fuel : nat) (w : World) :
  execute P self (S fuel) w
  = if defined (injectedValue w) && truthy_string (lastError w)
    then (Thrown (nullish (error P self w) ""), w)
    else match read P self (set_lastError None (snd (render P self w))) with
         | (Returned false, w2) => execute P self fuel w2
         | (Returned true, w2) =>
             if negb (defined (value w2))
             then (Thrown "internal error: failed to read value", w2)
             else (Returned (value w2), finish P self w2)
         | (Thrown e, w2) => (Thrown e, w2)
         | (Exited c, w2) => (Exited c, w2)
         | (Unsettled, w2) => (Unsettled, w2)
         end.
Proof.
  cbn [execute]. unfold bind at 1, get at 1.
  destruct (defined (injectedValue w) && truthy_string (lastError w));
    [reflexivity |].
  unfold bind at 1.
  pose proof (render_returns w) as Hr.
  destruct (render P self w) as [o w1]. cbn [snd] in *.
  injection Hr as ->.
  unfold bind at 1, modify at 1.
  unfold bind at 1.
  destruct (read P self (set_lastError None w1))
    as [[[|]| e | c |] w2]; try reflexivity.
  cbn [negb]. unfold bind at 1, get at 1.
  destruct (negb (defined (value w2))); [reflexivity |].
  unfold finish, clear, cursorShow, when, bind, modify, emit, ret.
  destruct (negb (success P self (value w2) =? "")%string); reflexivity.
Qed.

Lemma handleEvent_outcome (event : KeyCode) (w : World) :
  (fst (handleEvent self event w) = Returned tt
   /\ injectedValue (snd (handleEvent self event w)) = injectedValue w)
  \/ (fst (handleEvent self event w) = Exited 130
      /\ interrupt_exit 130 (snd (handleEvent self event w))
      /\ injectedValue (snd (handleEvent self event w)) = injectedValue w).
Proof.
  unfold handleEvent.
  destruct (match name event with
            | Some n => (n =? "c")%string
            | None => false
            end && ctrl event).
  - right. cbn. repeat split.
    exists (trace w). cbn. rewrite <- !app_assoc. reflexivity.
  - left. destruct (isKey (s_keys (settings self)) "submit" event).
    + unfold submit. rewrite validateValue_returns.
      split; [reflexivity | apply validateValue_preserves_slot].
    + split; reflexivity.
Qed.

Lemma handleEvents_outcome (events : list KeyCode) (w : World) :
  (fst (handleEvents self events w) = Returned tt
   /\ injectedValue (snd (handleEvents self events w)) = injectedValue w)
  \/ (fst (handleEvents self events w) = Exited 130
      /\ interrupt_exit 130 (snd (handleEvents self events w))
      /\ injectedValue (snd (handleEvents self events w)) = injectedValue w).
Proof.
  revert w. induction events as [|event events IH]; intros w.
  - left. split; reflexivity.
  - cbn [handleEvents]. unfold bind.
    destruct (handleEvent_outcome event w) as [[Ho Hi] | [Ho [Hx Hi]]];
      destruct (handleEvent self event w) as [o w1]; cbn [fst snd] in *;
      subst o.
    + rewrite <- Hi. apply IH.
    + right. cbn. split; [reflexivity | split; assumption].
Qed.

Lemma readChar_preserves_slot (w : World) :
  injectedValue (snd (readChar P self w)) = injectedValue w.
Proof.
  unfold readChar, reader_read, setRaw, when, bind, get, modify, emit, ret,
    throw.
  destruct (isatty P); cbn;
    destruct (reads P (readCount w)); reflexivity.
Qed.

Lemma readChar_outcome (w : World) :
  (exists data, fst (readChar P self w) = Returned data)
  \/ (exists e, fst (readChar P self w) = Thrown e).
Proof.
  unfold readChar, reader_read, setRaw, when, bind, get, modify, emit, ret,
    throw.
  destruct (isatty P); cbn;
    destruct (reads P (readCount w)) as [data| |e]; cbn;
    solve [left; eexists; reflexivity | right; eexists; reflexivity].
Qed.

Lemma readKey_outcome (w : World) :
  (exists events, fst (readKey P self w) = Returned events)
  \/ (exists e, fst (readKey P self w) = Thrown e).
Proof.
  unfold readKey, bind.
  destruct (readChar_outcome w) as [[data H] | [e H]];
    destruct (readChar P self w) as [o w1]; cbn [fst] in H; subst o.
  - left. destruct (negb (length data =? 0)%nat); eexists; reflexivity.
  - right. eexists. reflexivity.
Qed.

Lemma readKey_preserves_slot (w : World) :
  injectedValue (snd (readKey P self w)) = injectedValue w.
Proof.
  unfold readKey, bind.
  pose proof (readChar_preserves_slot w) as H.
  destruct (readChar P self w) as [[data|e|c|] w1]; cbn [snd] in *;
    try exact H.
  destruct (negb (length data =? 0)%nat); cbn; exact H.
Qed.

Lemma read_injected (w : World) :
  defined (injectedValue w) = true ->
  read P self w
  = (Returned (defined (value (snd (validateValue self (injectedValue w) w)))),
     snd (validateValue self (injectedValue w) w)).
Proof.
  intros H. unfold read. unfold bind at 1, get at 1. rewrite H.
  unfold bind at 1. rewrite validateValue_returns. reflexivity.
Qed.

Lemma read_typed (w : World) :
  defined (injectedValue w) = false ->
  read P self w
  = match readKey P self w with
    | (Returned events, w1) =>
        if (length events =? 0)%nat
        then (Returned false, w1)
        else match handleEvents self events w1 with
             | (Returned _, w2) => (Returned (defined (value w2)), w2)
             | (Thrown e, w2) => (Thrown e, w2)
             | (Exited c, w2) => (Exited c, w2)
             | (Unsettled, w2) => (Unsettled, w2)
             end
    | (Thrown e, w1) => (Thrown e, w1)
    | (Exited c, w1) => (Exited c, w1)
    | (Unsettled, w1) => (Unsettled, w1)
    end.
Proof.
  intros H. unfold read. unfold bind at 1, get at 1. rewrite H.
  unfold bind at 1.
  destruct (readKey P self w) as [[events|e|c|] w1]; try reflexivity.
  destruct (length events =? 0)%nat; [reflexivity |].
  unfold bind at 1.
  destruct (handleEvents self events w1) as [[[]|e|c|] w2]; reflexivity.
Qed.

(** [read] returns, throws, or exits by the interrupt; it leaves the
    injected-value slot as it is. *)
Lemma read_outcome (w : World) :
  injectedValue (snd (read P self w)) = injectedValue w
  /\ ((exists b, fst (read P self w) = Returned b)
      \/ (exists e, fst (read P self w) = Thrown e)
      \/ (fst (read P self w) = Exited 130
          /\ interrupt_exit 130 (snd (read P self w)))).
Proof.
  destruct (defined (injectedValue w)) eqn:Hd.
  - rewrite (read_injected w Hd). cbn [fst snd].
    split; [apply validateValue_preserves_slot | left; eexists; reflexivity].
  - rewrite (read_typed w Hd).
    pose proof (readKey_preserves_slot w) as Hs.
    destruct (readKey_outcome w) as [[events Hk] | [e Hk]];
      destruct (readKey P self w) as [o w1]; cbn [fst snd] in *; subst o.
    + destruct (length events =? 0)%nat.
      * cbn. split; [exact Hs | left; eexists; reflexivity].
      * destruct (handleEvents_outcome events w1) as [[Ho Hi] | [Ho [Hx Hi]]];
          destruct (handleEvents self events w1) as [o w2];
          cbn [fst snd] in *; subst o; cbn.
        -- split; [congruence | left; eexists; reflexivity].
        -- split; [congruence | right; right; split; [reflexivity | exact Hx]].
    + cbn. split; [exact Hs | right; left; eexists; reflexivity].
Qed.

(** A run of [#execute] that ends by a process exit ends by the
    interrupt. *)
Lemma execute_exit (fuel : nat) (w : World) (c : Z) (w' : World) :
  execute P self fuel w = (Exited c, w') -> interrupt_exit c w'.
Proof.
  revert w. induction fuel as [|fuel IH]; intros w.
  - cbn. discriminate.
  - rewrite execute_step.
    destruct (defined (injectedValue w) && truthy_string (lastError w));
      [discriminate |].
    destruct (read_outcome (set_lastError None (snd (render P self w))))
      as [_ [[b Hr] | [[e Hr] | [Hr Hx]]]];
      destruct (read P self (set_lastError None (snd (render P self w))))
        as [o w2]; cbn [fst snd] in *; subst o.
    + destruct b.
      * destruct (negb (defined (value w2))); discriminate.
      * apply IH.
    + discriminate.
    + intros H. injection H as <- <-. exact Hx.
Qed.

(** A run of [#execute] that returns has cleared the slot; one that
    throws or exits has left it as it was. *)
Lemma execute_slot (fuel : nat) (w : World) (o : Outcome JsValue) (w' : World) :
  execute P self fuel w = (o, w') ->
  match o with
  | Returned v => injectedValue w' = JUndefined /\ defined v = true
  | _ => injectedValue w' = injectedValue w
  end.
Proof.
  revert w. induction fuel as [|fuel IH]; intros w.
  - cbn. intros H. injection H as <- <-. reflexivity.
  - rewrite execute_step.
    destruct (defined (injectedValue w) && truthy_string (lastError w)).
    { intros H. injection H as <- <-. reflexivity. }
    pose proof (proj1 (read_outcome (set_lastError None (snd (render P self w)))))
      as Hs.
    cbn [injectedValue set_lastError] in Hs.
    rewrite (proj1 (render_preserves w)) in Hs.
    destruct (read P self (set_lastError None (snd (render P self w))))
      as [[[|]| e | c |] w2]; cbn [snd] in Hs.
    + destruct (defined (value w2)) eqn:Hd; cbn [negb];
        intros H; injection H as <- <-.
      * split; [| exact Hd].
        unfold finish.
        destruct (negb (success P self (value w2) =? "")%string); reflexivity.
      * exact Hs.
    + intros H. specialize (IH w2 H). rewrite Hs in IH. exact IH.
    + intros H. injection H as <- <-. exact Hs.
    + intros H. injection H as <- <-. exact Hs.
    + intros H. injection H as <- <-. exact Hs.
Qed.

End Loop.

(** C9.  A key event that is the interrupt combination (name "c" with
    ctrl) makes [handleEvent] erase the render, show the cursor and only
    then exit the process with status 130, whatever the state it arrives
    in; the value and the error are left as they were, the events after
    it are not handled, and every prompt call that ends by a process exit
    ends with exactly this sequence, so that no submit and no validation
    runs after it. *)
Theorem interrupt_shows_cursor_then_exits
  (P : Platform) (self : Prompt) (event : KeyCode) (w : World) :
  name event = Some "c" ->
  ctrl event = true ->
  fst (handleEvent self event w) = Exited 130
  /\ trace (snd (handleEvent self event w))
     = (trace w ++ [CursorLeft; EraseDown; CursorShow; ProcessExit 130])%list
  /\ cursorVisible (snd (handleEvent self event w)) = true
  /\ value (snd (handleEvent self event w)) = value w
  /\ lastError (snd (handleEvent self event w)) = lastError w
  /\ (forall rest,
        handleEvents self (event :: rest) w = handleEvent self event w)
  /\ (forall fuel w0 c w1,
        prompt P self fuel w0 = (Exited c, w1) -> interrupt_exit c w1).
Proof.
  intros Hname Hctrl.
  assert (E : handleEvent self event w
              = (Exited 130,
                 log (ProcessExit 130)
                   (set_cursorVisible true
                      (log CursorShow (log EraseDown (log CursorLeft w)))))).
  { unfold handleEvent. rewrite Hname, Hctrl. reflexivity. }
  repeat split.
  - rewrite E. reflexivity.
  - rewrite E. cbn. rewrite <- !app_assoc. reflexivity.
  - rewrite E. reflexivity.
  - rewrite E. reflexivity.
  - rewrite E. reflexivity.
  - intros rest. cbn [handleEvents]. unfold bind. rewrite E. reflexivity.
  - unfold prompt, try_finally in H.
    destruct (execute P self fuel w0) as [[v|e|c'|] w2] eqn:Hx;
      try discriminate.
    injection H as <- <-. destruct (execute_exit P self fuel w0 _ _ Hx).
    assumption.
  - unfold prompt, try_finally in H.
    destruct (execute P self fuel w0) as [[v|e|c'|] w2] eqn:Hx;
      try discriminate.
    injection H as <- <-.
    destruct (execute_exit P self fuel w0 _ _ Hx) as [_ [Hc _]]. exact Hc.
  - unfold prompt, try_finally in H.
    destruct (execute P self fuel w0) as [[v|e|c'|] w2] eqn:Hx;
      try discriminate.
    injection H as <- <-.
    destruct (execute_exit P self fuel w0 _ _ Hx) as [_ [_ Ht]]. exact Ht.
Qed.

Lemma interrupt_shows_cursor_then_exits_witness :
  fst (handleEvent strict_prompt (decode_byte 3) fresh) = Exited 130
  /\ interrupt_exit 130
       (snd (prompt (terminal interrupted) strict_prompt 3 fresh)).
Proof.
  pose proof (interrupt_shows_cursor_then_exits (terminal interrupted)
                strict_prompt (decode_byte 3) fresh eq_refl eq_refl) as H.
  split.
  - exact (proj1 H).
  - apply (proj2 (proj2 (proj2 (proj2 (proj2 (proj2 H))))) 3%nat fresh).
    reflexivity.
Defined.

(** An injected value that the pipeline turns neither into a value nor
    into a set error is validated again in every iteration: no iteration
    returns or throws. *)
Lemma execute_retries_injected
  (P : Platform) (self : Prompt) (fuel : nat) (w : World) :
  defined (injectedValue w) = true ->
  error_set w = false ->
  short_circuit self (injectedValue w) = false ->
  chosen_validate self (injectedValue w) = VString ""
  \/ (chosen_validate self (injectedValue w) = VBool true
      /\ chosen_transform self (injectedValue w) = JUndefined) ->
  fst (execute P self fuel w) = Unsettled.
Proof.
  intros Hinj Hclean Hsc Hv. revert w Hinj Hclean Hsc Hv.
  induction fuel as [|fuel IH]; intros w Hinj Hclean Hsc Hv; [reflexivity |].
  rewrite execute_step. rewrite Hinj.
  unfold error_set in Hclean. rewrite Hclean. cbn [andb].
  destruct (render_preserves P self w) as [Hslot _].
  assert (Hinj1 : defined (injectedValue
                             (set_lastError None (snd (render P self w))))
                  = true)
    by (cbn [injectedValue set_lastError]; rewrite Hslot; exact Hinj).
  rewrite (read_injected P self _ Hinj1).
  cbn [injectedValue set_lastError]. rewrite Hslot.
  rewrite (validateValue_validating self _ _ Hsc). cbn [snd].
  assert (Hw : value (validated self (injectedValue w)
                        (set_lastError None (snd (render P self w))))
               = JUndefined
               /\ error_set (validated self (injectedValue w)
                               (set_lastError None (snd (render P self w))))
                  = false
               /\ injectedValue (validated self (injectedValue w)
                                   (set_lastError None (snd (render P self w))))
                  = injectedValue w).
  { unfold validated.
    destruct Hv as [-> | [-> ->]];
      (split; [reflexivity | split; [reflexivity | exact Hslot]]). }
  destruct Hw as [Hval [Herr Hslot']].
  rewrite Hval. cbn [defined].
  apply IH; rewrite ?Hslot'; assumption.
Qed.

(** C4, the claim as stated fails.  A validator that answers the empty
    string rejects the injected value and its message is recorded in
    [#lastError], but the guard of the loop tests that field for
    truthiness: entered with the slot holding a value and the recorded
    error [""], no iteration throws, and after the failed first attempt
    no later iteration throws either. *)
Lemma execute_empty_error_never_throws :
  let w := snd (inject (JString "a") fresh) in
  chosen_validate mute_prompt (JString "a") = VString ""
  /\ lastError (snd (validateValue mute_prompt (JString "a") w)) = Some ""
  /\ value (snd (validateValue mute_prompt (JString "a") w)) = JUndefined
  /\ (forall fuel, fst (execute console mute_prompt fuel w) = Unsettled)
  /\ (forall fuel,
        fst (execute console mute_prompt fuel (set_lastError (Some "") w))
        = Unsettled).
Proof.
  cbn zeta. split; [reflexivity | split; [reflexivity | split; [reflexivity |]]].
  split; intros fuel.
  - exact (execute_retries_injected console mute_prompt fuel
             (snd (inject (JString "a") fresh)) eq_refl eq_refl eq_refl
             (or_introl eq_refl)).
  - exact (execute_retries_injected console mute_prompt fuel
             (set_lastError (Some "") (snd (inject (JString "a") fresh)))
             eq_refl eq_refl eq_refl (or_introl eq_refl)).
Qed.

(** C4, amended.  Whenever the injected-value slot holds a value and the
    recorded error is a non-empty message when an iteration of the
    execute loop starts, the call throws an error that carries the error
    line of that message, and does nothing else: no render, no retry.
    Hence, when an injected value is rejected by the validator with a
    non-empty message (the generic one included) on a first iteration,
    the second iteration throws: the run ends in the state the first
    iteration left. *)
Theorem execute_injected_failure_throws (P : Platform) (self : Prompt) :
  (forall fuel w e,
      defined (injectedValue w) = true ->
      lastError w = Some e ->
      e <> "" ->
      execute P self (S fuel) w = (Thrown (error_line P self e), w)
      /\ fst (prompt P self (S fuel) w) = Thrown (error_line P self e))
  /\ (forall fuel w e,
        defined (injectedValue w) = true ->
        error_set w = false ->
        short_circuit self (injectedValue w) = false ->
        rejection (chosen_validate self (injectedValue w)) = Some e ->
        e <> "" ->
        execute P self (S (S fuel)) w
        = (Thrown (error_line P self e),
           validated self (injectedValue w)
             (set_lastError None (snd (render P self w))))
        /\ fst (prompt P self (S (S fuel)) w)
           = Thrown (error_line P self e)).
Proof.
  assert (Hloop : forall fuel w e,
             defined (injectedValue w) = true ->
             lastError w = Some e ->
             e <> "" ->
             execute P self (S fuel) w = (Thrown (error_line P self e), w)).
  { intros fuel w e Hinj Herr Hne.
    rewrite execute_step. unfold error, error_line. rewrite Hinj, Herr.
    cbn. destruct (String.eqb_spec e ""); [contradiction | reflexivity]. }
  split.
  - intros fuel w e Hinj Herr Hne.
    split; [exact (Hloop fuel w e Hinj Herr Hne) |].
    unfold prompt, try_finally. rewrite (Hloop fuel w e Hinj Herr Hne).
    reflexivity.
  - intros fuel w e Hinj Hclean Hsc Hrej Hne.
    assert (Hrun : execute P self (S (S fuel)) w
                   = (Thrown (error_line P self e),
                      validated self (injectedValue w)
                        (set_lastError None (snd (render P self w))))).
    { rewrite execute_step. rewrite Hinj.
      unfold error_set in Hclean. rewrite Hclean. cbn [andb].
      destruct (render_preserves P self w) as [Hslot _].
      assert (Hinj' : defined (injectedValue
                         (set_lastError None (snd (render P self w)))) = true)
        by (cbn [injectedValue set_lastError]; rewrite Hslot; exact Hinj).
      rewrite (read_injected P self _ Hinj').
      cbn [injectedValue set_lastError]. rewrite Hslot.
      rewrite (validateValue_validating self _ _ Hsc). cbn [snd].
      assert (Hv : value (validated self (injectedValue w)
                            (set_lastError None (snd (render P self w))))
                   = JUndefined
                   /\ lastError (validated self (injectedValue w)
                                   (set_lastError None (snd (render P self w))))
                      = Some e
                   /\ injectedValue (validated self (injectedValue w)
                                       (set_lastError None
                                          (snd (render P self w))))
                      = injectedValue w).
      { unfold validated.
        destruct (chosen_validate self (injectedValue w)) as [[|]|m];
          cbn in Hrej; try discriminate; injection Hrej as <-;
          (split; [reflexivity | split; [reflexivity | exact Hslot]]). }
      destruct Hv as [Hval [Herr Hslot']].
      rewrite Hval. cbn [defined].
      apply Hloop; [rewrite Hslot'; exact Hinj | exact Herr | exact Hne]. }
    split; [exact Hrun |].
    unfold prompt, try_finally. rewrite Hrun. reflexivity.
Qed.

Lemma execute_injected_failure_throws_witness :
  fst (prompt console strict_prompt 2 (set_injectedValue (JString "a") fresh))
  = Thrown "x too short".
Proof.
  assert (Hne : "too short" <> "") by discriminate.
  exact (proj2 (proj2 (execute_injected_failure_throws console strict_prompt)
                  0%nat (set_injectedValue (JString "a") fresh) "too short"
                  eq_refl eq_refl eq_refl eq_refl Hne)).
Defined.

(** C5, the claim as stated fails.  After the fatal replay error the
    slot still holds the injected value, and the next prompt call, of
    another prompt, resolves to that stale value without a read. *)
Lemma prompt_failure_keeps_injected_value :
  let r := prompt console strict_prompt 2
             (snd (inject (JString "a") fresh)) in
  let next := text_prompt (getDefaultSettings console (options_of "City"))
                JUndefined in
  fst r = Thrown "x too short"
  /\ injectedValue (snd r) = JString "a"
  /\ fst (prompt console next 1 (new_instance (snd r))) = Returned (JString "a")
  /\ readCount (snd (prompt console next 1 (new_instance (snd r)))) = 0%nat.
Proof.
  cbn. repeat split.
Qed.

(** C5, amended.  A prompt call that resolves successfully has cleared
    the injected-value slot before it returns its (defined) value, so the
    next prompt call finds the slot empty.  An injected value that the
    pipeline turns into a value is consumed once: the call resolves in
    its first iteration, with one run of the pipeline. *)
Theorem prompt_success_clears_injected_value (P : Platform) (self : Prompt) :
  (forall fuel w v w',
      prompt P self fuel w = (Returned v, w') ->
      injectedValue w' = JUndefined
      /\ defined v = true
      /\ defined (injectedValue (new_instance w')) = false)
  /\ (forall fuel w,
        defined (injectedValue w) = true ->
        error_set w = false ->
        let w1 := snd (validateValue self (injectedValue w)
                         (set_lastError None (snd (render P self w)))) in
        defined (value w1) = true ->
        execute P self (S fuel) w = (Returned (value w1), finish P self w1)
        /\ injectedValue (finish P self w1) = JUndefined).
Proof.
  split.
  - intros fuel w v w'. unfold prompt, try_finally.
    destruct (execute P self fuel w) as [[v0|e|c|] w1] eqn:Hx;
      try discriminate.
    intros H. injection H as <- <-.
    destruct (execute_slot P self fuel w _ _ Hx) as [Hs Hd].
    cbn. rewrite Hs. repeat split. exact Hd.
  - intros fuel w Hinj Hclean w1 Hval. subst w1.
    assert (Hrun : execute P self (S fuel) w
                   = (Returned (value (snd (validateValue self (injectedValue w)
                                  (set_lastError None (snd (render P self w)))))),
                      finish P self
                        (snd (validateValue self (injectedValue w)
                                (set_lastError None (snd (render P self w))))))).
    { rewrite execute_step. rewrite Hinj.
      unfold error_set in Hclean. rewrite Hclean. cbn [andb].
      destruct (render_preserves P self w) as [Hslot _].
      assert (Hinj' : defined (injectedValue
                         (set_lastError None (snd (render P self w)))) = true)
        by (cbn [injectedValue set_lastError]; rewrite Hslot; exact Hinj).
      rewrite (read_injected P self _ Hinj').
      cbn [injectedValue set_lastError]. rewrite Hslot.
      rewrite Hval. cbn [negb]. reflexivity. }
    split; [exact Hrun |].
    exact (proj1 (execute_slot P self (S fuel) w _ _ Hrun)).
Qed.

Lemma prompt_success_clears_injected_value_witness :
  injectedValue
    (snd (prompt console ann_prompt 1 (set_injectedValue (JString "") fresh)))
  = JUndefined
  /\ fst (execute console ann_prompt 1 (set_injectedValue (JString "") fresh))
     = Returned (JString "Ann").
Proof.
  pose proof (prompt_success_clears_injected_value console ann_prompt) as H.
  split.
  - exact (proj1 (proj1 H 1%nat (set_injectedValue (JString "") fresh)
                    (JString "Ann") _ eq_refl)).
  - rewrite (proj1 (proj2 H 0%nat (set_injectedValue (JString "") fresh)
                      eq_refl eq_refl eq_refl)).
    reflexivity.
Defined.

(** * Further properties of the module *)

(** ** Strings *)

Lemma append_assoc (a b c : string) : (a ++ b) ++ c = a ++ b ++ c.
Proof.
  induction a as [|ch a IH]; cbn; [reflexivity | rewrite IH; reflexivity].
Qed.

Lemma append_empty (a b : string) : a ++ b = "" -> a = "" /\ b = "".
Proof.
  destruct a; cbn; [intros ->; split; reflexivity | discriminate].
Qed.

Lemma split_not_empty (s : string) : (1 <= length (split s))%nat.
Proof.
  induction s as [|c s IH]; cbn; [lia |].
  destruct (Ascii.eqb c newline); cbn; [lia |].
  destruct (split s); cbn; lia.
Qed.

(** ** Message lines *)

(** X1.  The success line is the message line followed by a space, the
    pointer, a space and the formatted value in green; it is never
    empty, so that the success branch of [#execute] always writes it. *)
Theorem success_extends_message (P : Platform) (self : Prompt) (v : JsValue) :
  success P self v
  = message P self ++ " " ++ s_pointer (settings self) ++ " "
    ++ green P (format self v)
  /\ success P self v <> ""
  /\ forall w, trace (finish P self w)
               = (trace w ++ [CursorLeft; EraseDown;
                              WriterWrite (success P self (value w)
                                           ++ String newline "");
                              CursorShow])%list.
Proof.
  assert (Hne : forall u, success P self u <> "").
  { intros u H. unfold success in H.
    do 4 (apply append_empty in H; destruct H as [_ H]).
    discriminate. }
  split; [| split].
  - unfold success, message. rewrite !append_assoc. reflexivity.
  - apply Hne.
  - intros w. unfold finish.
    destruct (String.eqb_spec (success P self (value w)) "") as [E|_].
    + destruct (Hne _ E).
    + cbn. rewrite <- !app_assoc. reflexivity.
Qed.

(** X2.  The footer shows the error line whenever an error is set, also
    when a hint is configured; without an error it is the hint; it is
    absent exactly when no error is set and the hint is missing or
    empty.  After [setErrorMessage] with a non-empty message the footer
    is the error line of that message. *)
Theorem footer_prefers_error (P : Platform) (self : Prompt) (w : World) :
  (forall e, lastError w = Some e -> e <> "" ->
             footer P self w = Some (error_line P self e))
  /\ (error_set w = false -> footer P self w = hint P self)
  /\ (footer P self w = None <->
      error_set w = false
      /\ (s_hint (settings self) = None \/ s_hint (settings self) = Some ""))
  /\ (forall m, m <> "" ->
                footer P self (snd (setErrorMessage m w))
                = Some (error_line P self m)).
Proof.
  assert (Herr : forall w0 e, lastError w0 = Some e -> e <> "" ->
                   footer P self w0 = Some (error_line P self e)).
  { intros w0 e He Hne. unfold footer, error, error_line. rewrite He.
    destruct (String.eqb_spec e ""); [contradiction | reflexivity]. }
  assert (Hclean : error_set w = false -> footer P self w = hint P self).
  { unfold error_set, truthy_string, footer, error.
    destruct (lastError w) as [e|]; [| reflexivity].
    intros ->. reflexivity. }
  split; [exact (Herr w) | split; [exact Hclean | split]].
  - split.
    + intros H. destruct (error_set w) eqn:E.
      * unfold error_set, truthy_string in E.
        destruct (lastError w) as [e|] eqn:He; [| discriminate].
        rewrite (Herr w e He) in H; [discriminate |].
        intros ->. discriminate.
      * split; [reflexivity |].
        rewrite (Hclean eq_refl) in H. unfold hint in H.
        destruct (s_hint (settings self)) as [h|]; [| left; reflexivity].
        destruct (String.eqb_spec h ""); [subst; right; reflexivity |].
        discriminate.
    + intros [E Hh]. rewrite (Hclean E). unfold hint.
      destruct Hh as [-> | ->]; reflexivity.
  - intros m Hm. apply Herr; [reflexivity | exact Hm].
Qed.

Lemma footer_prefers_error_witness :
  footer console strict_prompt (set_lastError (Some "too short") fresh)
  = Some "x too short".
Proof.
  assert (Hne : "too short" <> "") by discriminate.
  exact (proj1 (footer_prefers_error console strict_prompt
                  (set_lastError (Some "too short") fresh))
           "too short" eq_refl Hne).
Defined.

(** ** Key bindings *)

(** X3.  An event matches the submit binding exactly when the settings
    hold an array of key names for it and the name or the sequence of
    the event is one of them; an event with neither a name nor a
    sequence matches nothing. *)
Theorem isKey_matches_name_or_sequence
  (keys : option GenericPromptKeys) (event : KeyCode) :
  (isKey keys "submit" event = true <->
   exists keyNames,
     key_names keys "submit" = Some keyNames
     /\ ((exists n, name event = Some n /\ In n keyNames)
         \/ (exists s, sequence event = Some s /\ In s keyNames)))
  /\ (name event = None -> sequence event = None ->
      isKey keys "submit" event = false).
Proof.
  split.
  - unfold isKey. destruct (key_names keys "submit") as [keyNames|].
    + rewrite orb_true_iff. split.
      * intros [H | H]; exists keyNames; (split; [reflexivity |]).
        -- left. destruct (name event) as [n|]; [| discriminate].
           exists n. split; [reflexivity | apply includes_In; exact H].
        -- right. destruct (sequence event) as [s|]; [| discriminate].
           exists s. split; [reflexivity | apply includes_In; exact H].
      * intros [l [Hl [[n [Hn Hin]] | [s [Hs Hin]]]]];
          injection Hl as <-.
        -- left. rewrite Hn. apply includes_In. exact Hin.
        -- right. rewrite Hs. apply includes_In. exact Hin.
    + split; [discriminate |]. intros [l [Hl _]]. discriminate.
  - intros Hn Hs. unfold isKey. rewrite Hn, Hs.
    destruct (key_names keys "submit"); reflexivity.
Qed.

Lemma isKey_matches_name_or_sequence_witness :
  isKey None "submit" {| name := None; sequence := None; ctrl := false;
                         meta := false; shift := false |} = false.
Proof.
  exact (proj2 (isKey_matches_name_or_sequence None
                  {| name := None; sequence := None; ctrl := false;
                     meta := false; shift := false |}) eq_refl eq_refl).
Defined.

(** X4.  The [keys] option is merged property by property: a [keys]
    object without a [submit] property leaves the default binding in
    place, while a [submit] property that holds [undefined] or the empty
    array disables submitting: no event matches, and [handleEvent] does
    nothing with any event other than the interrupt. *)
Theorem keys_option_merges_by_property
  (P : Platform) (options : GenericPromptOptions) :
  (o_keys options = Some {| k_submit := None |} ->
   key_names (s_keys (getDefaultSettings P options)) "submit"
   = Some ["enter"; "return"])
  /\ (o_keys options = Some {| k_submit := Some None |}
      \/ o_keys options = Some {| k_submit := Some (Some []) |} ->
      forall event,
        isKey (s_keys (getDefaultSettings P options)) "submit" event = false
        /\ forall self w,
            settings self = getDefaultSettings P options ->
            is_interrupt event = false ->
            handleEvent self event w = (Returned tt, w)).
Proof.
  split.
  - intros H. unfold getDefaultSettings. cbn. rewrite H. reflexivity.
  - intros H event.
    assert (Hkey : isKey (s_keys (getDefaultSettings P options)) "submit" event
                   = false).
    { unfold getDefaultSettings, isKey. cbn [s_keys].
      destruct H as [-> | ->]; cbn.
      - reflexivity.
      - destruct (name event), (sequence event); reflexivity. }
    split; [exact Hkey |].
    intros self w Hs Hint. unfold handleEvent.
    unfold is_interrupt in Hint. rewrite Hint, Hs, Hkey. reflexivity.
Qed.

Lemma keys_option_merges_by_property_witness :
  key_names (s_keys (getDefaultSettings console
                       (keys_options {| k_submit := None |}))) "submit"
  = Some ["enter"; "return"]
  /\ isKey (s_keys (getDefaultSettings console
                      (keys_options {| k_submit := Some None |}))) "submit"
           (decode_byte 13) = false.
Proof.
  split.
  - exact (proj1 (keys_option_merges_by_property console
                    (keys_options {| k_submit := None |})) eq_refl).
  - exact (proj1 (proj2 (keys_option_merges_by_property console
                           (keys_options {| k_submit := Some None |}))
                    (or_introl eq_refl) (decode_byte 13))).
Defined.

(** ** Line counting *)

Lemma wrapped_positive (W L : Z) : 0 < W -> 1 <= wrapped W L.
Proof.
  intros HW. unfold wrapped. destruct (Z.gtb_spec L W); [| lia].
  pose proof (ceil_div_bounds L W HW). nia.
Qed.

Lemma total_at_least_length {A : Type} (f : A -> Z) (l : list A) :
  (forall a, 1 <= f a) -> Z.of_nat (length l) <= total (map f l).
Proof.
  intros Hf. unfold total.
  induction l as [|a l IH]; cbn [length map fold_right]; [lia |].
  specialize (Hf a). lia.
Qed.

Lemma total_of_fitting_lines (P : Platform) (W : Z) (lines : list string) :
  Forall (fun line => printable_length P line <= W) lines ->
  total (map (fun line => wrapped W (printable_length P line)) lines)
  = Z.of_nat (length lines).
Proof.
  unfold total.
  induction lines as [|line lines IH]; intros Hfit;
    cbn [length map fold_right]; [reflexivity |].
  inversion Hfit as [|? ? Hline Hrest]; subst.
  rewrite (IH Hrest). unfold wrapped.
  destruct (Z.gtb_spec (printable_length P line) W); lia.
Qed.

(** X5.  With a positive column count, wrapping never loses a line: the
    line count is at least the number of logical lines (hence at least
    one), and it is that number when no line is wider than the
    terminal.  A column count of zero is treated like an unknown one. *)
Theorem linesCount_at_least_lines (P : Platform) (content : string) (W : Z) :
  0 < W ->
  Z.of_nat (length (split content)) <= linesCount P (Some W) content
  /\ 1 <= linesCount P (Some W) content
  /\ (Forall (fun line => printable_length P line <= W) (split content) ->
      linesCount P (Some W) content = Z.of_nat (length (split content)))
  /\ linesCount P (Some 0) content = linesCount P None content.
Proof.
  intros HW.
  assert (E : linesCount P (Some W) content
              = total (map (fun line => wrapped W (printable_length P line))
                         (split content))).
  { unfold linesCount. destruct (Z.eqb_spec W 0); [lia |]. cbn [negb].
    rewrite fold_left_total. reflexivity. }
  assert (Hge : Z.of_nat (length (split content))
                <= linesCount P (Some W) content).
  { rewrite E. apply total_at_least_length.
    intros line. apply wrapped_positive. exact HW. }
  split; [exact Hge | split; [| split]].
  - pose proof (split_not_empty content). lia.
  - rewrite E. apply total_of_fitting_lines.
  - reflexivity.
Qed.

Lemma linesCount_at_least_lines_witness :
  1 <= linesCount console (Some 80) "Name".
Proof.
  exact (proj1 (proj2 (linesCount_at_least_lines console "Name" 80 eq_refl))).
Defined.

(** ** The validation pipeline, further *)

Lemma validateValue_value (self : Prompt) (v : JsValue) (w : World) :
  value (snd (validateValue self v w)) = resolved self v.
Proof.
  unfold resolved. destruct (short_circuit self v) eqn:E.
  - rewrite (validateValue_default self v w E). reflexivity.
  - rewrite (validateValue_validating self v w E). unfold validated.
    destruct (chosen_validate self v) as [[|]|m]; reflexivity.
Qed.

(** X6.  The default short-circuit is taken exactly when a default is
    configured and the raw value is one of [undefined], [null], [false],
    the number zero, [NaN] and the empty string: with a default, a typed
    zero or [false] resolves to the default as an absent input does, and
    is never shown to a validator. *)
Theorem short_circuit_on_falsy (self : Prompt) (v : JsValue) :
  (short_circuit self v = true <->
   defined (s_default (settings self)) = true
   /\ (v = JUndefined \/ v = JNull \/ v = JBool false \/ v = JNumber 0
       \/ v = JNaN \/ v = JString ""))
  /\ (short_circuit self v = true ->
      forall w, value (snd (validateValue self v w)) = s_default (settings self)
                /\ trace (snd (validateValue self v w)) = trace w).
Proof.
  split.
  - unfold short_circuit. rewrite andb_true_iff, negb_true_iff. split.
    + intros [Hv Hd]. split; [exact Hd |].
      destruct v as [| |[|]|n| |s|r]; cbn in Hv; try discriminate;
        try solve [auto 8].
      * apply negb_false_iff, Z.eqb_eq in Hv. subst. auto 8.
      * apply negb_false_iff, String.eqb_eq in Hv. subst. auto 8.
    + intros [Hd Hv]. split; [| exact Hd].
      destruct Hv as [-> | [-> | [-> | [-> | [-> | ->]]]]]; reflexivity.
  - intros E w. rewrite (validateValue_default self v w E).
    split; reflexivity.
Qed.

Lemma short_circuit_on_falsy_witness :
  value (snd (validateValue ann_prompt (JNumber 0) fresh)) = JString "Ann".
Proof.
  exact (proj1 (proj2 (short_circuit_on_falsy ann_prompt (JNumber 0))
                  eq_refl fresh)).
Defined.

(** X7.  The pipeline forgets the state it starts from: the value it
    leaves depends on the candidate only, and running it a second time
    on the same candidate changes neither the value nor the error. *)
Theorem validateValue_idempotent (self : Prompt) (v : JsValue) (w w0 : World) :
  value (snd (validateValue self v w)) = value (snd (validateValue self v w0))
  /\ value (snd (validateValue self v (snd (validateValue self v w))))
     = value (snd (validateValue self v w))
  /\ lastError (snd (validateValue self v (snd (validateValue self v w))))
     = lastError (snd (validateValue self v w)).
Proof.
  split; [| split].
  - rewrite !validateValue_value. reflexivity.
  - rewrite !validateValue_value. reflexivity.
  - destruct (short_circuit self v) eqn:E.
    + rewrite !(validateValue_default self v _ E). reflexivity.
    + rewrite !(validateValue_validating self v _ E). unfold validated.
      destruct (chosen_validate self v) as [[|]|m]; reflexivity.
Qed.

(** ** The read cycle, further *)

(** X8.  When the reader is no terminal, [#readChar] never switches raw
    mode: whatever the read does, it is the only effect, and the raw
    mode of the reader is left as it was. *)
Theorem readChar_no_raw_mode_off_terminal
  (P : Platform) (self : Prompt) (w : World) :
  isatty P = false ->
  trace (snd (readChar P self w)) = (trace w ++ [ReaderRead])%list
  /\ rawMode (snd (readChar P self w)) = rawMode w.
Proof.
  intros Htty.
  unfold readChar, reader_read, setRaw, when, bind, get, modify, emit, ret,
    throw.
  rewrite Htty. cbn.
  destruct (reads P (readCount w)); split; reflexivity.
Qed.

Lemma readChar_no_raw_mode_off_terminal_witness :
  trace (snd (readChar (pipe never) ann_prompt fresh)) = [ReaderRead].
Proof.
  exact (proj1 (readChar_no_raw_mode_off_terminal (pipe never) ann_prompt
                  fresh eq_refl)).
Defined.

(** X9.  Every call of [#readChar] issues exactly one read, and what it
    returns never exceeds the eight bytes of its buffer. *)
Theorem readChar_one_read_of_eight_bytes
  (P : Platform) (self : Prompt) (w : World) :
  readCount (snd (readChar P self w)) = S (readCount w)
  /\ forall data, fst (readChar P self w) = Returned data ->
                  (length data <= 8)%nat.
Proof.
  unfold readChar, reader_read, setRaw, when, bind, get, modify, emit, ret,
    throw.
  destruct (isatty P); cbn -[subarray fill];
    destruct (reads P (readCount w)) as [bytes| |e]; cbn -[subarray fill];
    (split; [reflexivity |]); intros data H; try discriminate;
    injection H as <-; unfold subarray, fill;
    try (rewrite firstn_firstn, length_firstn); cbn; lia.
Qed.

Lemma readChar_one_read_of_eight_bytes_witness :
  readCount (snd (readChar console ann_prompt fresh)) = 1%nat
  /\ (length [0; 0; 0; 0; 0; 0; 0; 0] <= 8)%nat.
Proof.
  pose proof (readChar_one_read_of_eight_bytes console ann_prompt fresh) as H.
  split; [exact (proj1 H) | exact (proj2 H _ eq_refl)].
Defined.

(** ** Rendering *)

Section Rendering.

Variable P : Platform.
Variable self : Prompt.

(** The effects of one [render], in order. *)
Lemma render_trace (w : World) :
  trace (snd (render P self w))
  = (trace w
     ++ (if negb (isFirstRun w) || error_set w
         then [CursorLeft; EraseDown] else [])
     ++ [StdoutWrite (rendered P self w)]
     ++ (if negb (linesCount P (getColumns P) (rendered P self w)
                  - y (cursor w) - 1 =? 0)
         then [CursorUp (linesCount P (getColumns P) (rendered P self w)
                         - y (cursor w) - 1)]
         else [])
     ++ [CursorTo (x (cursor w))])%list.
Proof.
  unfold render, rendered, error_set, when, clear, bind, get, modify, emit,
    ret.
  destruct (negb (isFirstRun w) || truthy_string (lastError w));
    match goal with
    | |- context [negb (?n =? 0)] => destruct (negb (n =? 0))
    end; cbn; rewrite <- ?app_assoc; reflexivity.
Qed.

Lemma render_frame (w : World) :
  isFirstRun (snd (render P self w)) = false
  /\ cursor (snd (render P self w)) = cursor w
  /\ rawMode (snd (render P self w)) = rawMode w
  /\ cursorVisible (snd (render P self w)) = cursorVisible w
  /\ readCount (snd (render P self w)) = readCount w.
Proof.
  unfold render, when, clear, bind, get, modify, emit, ret.
  destruct (negb (isFirstRun w) || truthy_string (lastError w));
    match goal with
    | |- context [negb (?n =? 0)] => destruct (negb (n =? 0))
    end; repeat split.
Qed.

End Rendering.

(** X10.  [render] repaints in place.  It always returns, writes the
    content once, and ends by placing the cursor in its column; it
    leaves the value, the error, the injected-value slot, the cursor
    position, the raw mode and the reader untouched.  The first render
    of a prompt without a pending error erases nothing; every render
    that follows a render first erases the previous block. *)
Theorem render_repaints_in_place (P : Platform) (self : Prompt) (w : World) :
  fst (render P self w) = Returned tt
  /\ (value (snd (render P self w)) = value w
      /\ lastError (snd (render P self w)) = lastError w
      /\ injectedValue (snd (render P self w)) = injectedValue w
      /\ cursor (snd (render P self w)) = cursor w
      /\ rawMode (snd (render P self w)) = rawMode w
      /\ readCount (snd (render P self w)) = readCount w)
  /\ (exists up,
        trace (snd (render P self w))
        = (trace w
           ++ (if negb (isFirstRun w) || error_set w
               then [CursorLeft; EraseDown] else [])
           ++ [StdoutWrite (rendered P self w)] ++ up
           ++ [CursorTo (x (cursor w))])%list
        /\ Forall (fun e => exists n, n <> 0 /\ e = CursorUp n) up)
  /\ (exists rest,
        trace (snd (render P self (snd (render P self w))))
        = (trace (snd (render P self w))
           ++ CursorLeft :: EraseDown :: rest)%list).
Proof.
  destruct (render_preserves P self w) as [Hi [Hv He]].
  destruct (render_frame P self w) as [Hf [Hc [Hr [_ Hn]]]].
  split; [rewrite render_returns; reflexivity |].
  split; [repeat split; assumption |].
  split.
  - eexists. split; [apply render_trace |].
    destruct (Z.eqb_spec (linesCount P (getColumns P) (rendered P self w)
                          - y (cursor w) - 1) 0) as [E|E]; cbn [negb].
    + constructor.
    + constructor; [| constructor]. eexists. split; [exact E | reflexivity].
  - eexists. rewrite (render_trace P self (snd (render P self w))).
    rewrite Hf. cbn [negb orb app]. reflexivity.
Qed.

(** ** The loop: frames of its steps *)

Section Frames.

Variable P : Platform.
Variable self : Prompt.

Lemma filter_log (f : Effect -> bool) (e : Effect) (w : World) :
  filter f (trace (log e w))
  = (filter f (trace w) ++ if f e then [e] else [])%list.
Proof.
  cbn. rewrite filter_app. cbn. destruct (f e); reflexivity.
Qed.

Lemma quiet_refl (w : World) : quiet w w.
Proof. repeat split. Qed.

Lemma quiet_trans (w1 w2 w3 : World) :
  quiet w1 w2 -> quiet w2 w3 -> quiet w1 w3.
Proof.
  intros [A1 [B1 C1]] [A2 [B2 C2]]. repeat split; congruence.
Qed.

Lemma render_quiet (w : World) : quiet w (snd (render P self w)).
Proof.
  destruct (render_frame P self w) as [_ [_ [Hr [_ Hn]]]].
  split; [exact Hn | split; [exact Hr |]].
  rewrite render_trace, !filter_app.
  destruct (negb (isFirstRun w) || error_set w);
    match goal with
    | |- context [negb (?n =? 0)] => destruct (negb (n =? 0))
    end; cbn; rewrite ?app_nil_r; reflexivity.
Qed.

Lemma validateValue_quiet (v : JsValue) (w : World) :
  quiet w (snd (validateValue self v w)).
Proof.
  destruct (short_circuit self v) eqn:E.
  - rewrite (validateValue_default self v w E). repeat split.
  - rewrite (validateValue_validating self v w E). unfold validated.
    destruct (chosen_validate self v) as [[|]|m]; repeat split; cbn;
      rewrite ?filter_app; cbn; rewrite ?app_nil_r; reflexivity.
Qed.

Lemma finish_quiet (w : World) : quiet w (finish P self w).
Proof.
  unfold finish.
  destruct (negb (success P self (value w) =? "")%string);
    repeat split; cbn; rewrite ?filter_app; cbn; rewrite ?app_nil_r;
    reflexivity.
Qed.

Lemma validateValue_frame (v : JsValue) (w : World) :
  rawMode (snd (validateValue self v w)) = rawMode w
  /\ readCount (snd (validateValue self v w)) = readCount w
  /\ cursorVisible (snd (validateValue self v w)) = cursorVisible w.
Proof.
  destruct (short_circuit self v) eqn:E.
  - rewrite (validateValue_default self v w E). repeat split.
  - rewrite (validateValue_validating self v w E). unfold validated.
    destruct (chosen_validate self v) as [[|]|m]; repeat split.
Qed.

End Frames.

Section Events.

Variable P : Platform.
Variable self : Prompt.

Lemma handleEvent_ignored (event : KeyCode) (w : World) :
  ignored self event = true ->
  handleEvent self event w = (Returned tt, w).
Proof.
  unfold ignored, is_interrupt, handleEvent.
  rewrite andb_true_iff, !negb_true_iff. intros [-> ->]. reflexivity.
Qed.


Lemma handleEvent_submits (event : KeyCode) (w : World) :
  is_interrupt event = false ->
  isKey (s_keys (settings self)) "submit" event = true ->
  handleEvent self event w
  = (Returned tt, snd (validateValue self (getValue self) w)).
Proof.
  unfold is_interrupt, handleEvent, submit. intros -> ->.
  apply validateValue_returns.
Qed.

Lemma handleEvent_frame (event : KeyCode) (w : World) :
  rawMode (snd (handleEvent self event w)) = rawMode w
  /\ readCount (snd (handleEvent self event w)) = readCount w.
Proof.
  unfold handleEvent.
  destruct (match name event with
            | Some n => (n =? "c")%string
            | None => false
            end && ctrl event); [split; reflexivity |].
  destruct (isKey (s_keys (settings self)) "submit" event);
    [| split; reflexivity].
  unfold submit.
  destruct (validateValue_frame self (getValue self) w) as [Hr [Hn _]].
  split; assumption.
Qed.

Lemma handleEvents_frame (events : list KeyCode) (w : World) :
  rawMode (snd (handleEvents self events w)) = rawMode w
  /\ readCount (snd (handleEvents self events w)) = readCount w.
Proof.
  revert w. induction events as [|event events IH]; intros w;
    [split; reflexivity |].
  cbn [handleEvents]. unfold bind.
  destruct (handleEvent_frame event w) as [Hr Hn].
  destruct (handleEvent self event w) as [[[]|e|c|] w1]; cbn [snd] in *;
    try (split; assumption).
  destruct (IH w1) as [Hr1 Hn1]. split; congruence.
Qed.

Lemma readChar_frame (w : World) :
  value (snd (readChar P self w)) = value w
  /\ lastError (snd (readChar P self w)) = lastError w
  /\ readCount (snd (readChar P self w)) = S (readCount w)
  /\ (forall e, fst (readChar P self w) = Thrown e ->
                reads P (readCount w) = ReadError e)
  /\ ((forall e, reads P (readCount w) <> ReadError e) ->
      rawMode (snd (readChar P self w))
      = if isatty P then false else rawMode w).
Proof.
  unfold readChar, reader_read, setRaw, when, bind, get, modify, emit, ret,
    throw.
  destruct (isatty P); cbn -[subarray fill];
    destruct (reads P (readCount w)) as [bytes| |e0]; cbn -[subarray fill];
    repeat split; try discriminate; try reflexivity;
    try (intros e H; injection H as <-; reflexivity);
    intros H; destruct (H e0 eq_refl).
Qed.

Lemma readKey_frame (w : World) :
  value (snd (readKey P self w)) = value w
  /\ lastError (snd (readKey P self w)) = lastError w
  /\ readCount (snd (readKey P self w)) = S (readCount w)
  /\ (forall e, fst (readKey P self w) = Thrown e ->
                reads P (readCount w) = ReadError e)
  /\ ((forall e, reads P (readCount w) <> ReadError e) ->
      rawMode (snd (readKey P self w))
      = if isatty P then false else rawMode w).
Proof.
  destruct (readChar_frame w) as [Hv [He [Hn [Ht Hr]]]].
  unfold readKey, bind.
  destruct (readChar P self w) as [[data|e|c|] w1]; cbn [fst snd] in *.
  - destruct (negb (length data =? 0)%nat); cbn;
      repeat apply conj; first [assumption | intros; discriminate].
  - repeat apply conj; try assumption.
    intros e0 H. injection H as <-. apply Ht. reflexivity.
  - repeat apply conj; first [assumption | intros; discriminate].
  - repeat apply conj; first [assumption | intros; discriminate].
Qed.

Lemma readKey_delivers (w : World) :
  (forall e, reads P (readCount w) <> ReadError e) ->
  (forall data, reads P (readCount w) = ReadBytes data ->
                (length data <= 8)%nat) ->
  fst (readKey P self w) = Returned (delivered P (reads P (readCount w))).
Proof.
  intros Hok Hlen. unfold delivered.
  destruct (reads P (readCount w)) as [data| |e] eqn:Hr.
  - pose proof (readChar_bytes P self w data Hr (Hlen data eq_refl)) as Hc.
    rewrite (readKey_of_readChar P self w data Hc).
    destruct data; reflexivity.
  - pose proof (readChar_null P self w Hr) as Hc.
    rewrite (readKey_of_readChar P self w _ Hc). reflexivity.
  - destruct (Hok e eq_refl).
Qed.

(** [read] answers [true] only when a value is set. *)
Lemma read_true (w w' : World) :
  read P self w = (Returned true, w') -> defined (value w') = true.
Proof.
  destruct (defined (injectedValue w)) eqn:Hd.
  - rewrite (read_injected P self w Hd). intros H.
    injection H as H <-. exact H.
  - rewrite (read_typed P self w Hd).
    destruct (readKey P self w) as [[events|e|c|] w1]; try discriminate.
    destruct (length events =? 0)%nat; [discriminate |].
    destruct (handleEvents self events w1) as [[[]|e|c|] w2];
      try discriminate.
    intros H. injection H as H <-. exact H.
Qed.

(** [read] throws only what the reader throws. *)
Lemma read_throws (w w' : World) (e : string) :
  read P self w = (Thrown e, w') ->
  defined (injectedValue w) = false
  /\ reads P (readCount w) = ReadError e.
Proof.
  destruct (defined (injectedValue w)) eqn:Hd.
  - rewrite (read_injected P self w Hd). discriminate.
  - rewrite (read_typed P self w Hd).
    destruct (readKey_frame w) as [_ [_ [_ [Ht _]]]].
    destruct (readKey P self w) as [[events|e0|c|] w1]; cbn [fst] in Ht.
    + destruct (length events =? 0)%nat; [discriminate |].
      destruct (handleEvents_outcome self events w1) as [[Ho _] | [Ho _]];
        destruct (handleEvents self events w1) as [o w2]; cbn [fst] in Ho;
        subst o; discriminate.
    + intros H. injection H as <- <-. split; [reflexivity |].
      apply Ht. reflexivity.
    + discriminate.
    + discriminate.
Qed.

End Events.

(** ** The loop: how a call ends *)

Lemma finish_trace (P : Platform) (self : Prompt) (w : World) :
  trace (finish P self w)
  = (trace w ++ [CursorLeft; EraseDown;
                 WriterWrite (success P self (value w) ++ String newline "");
                 CursorShow])%list.
Proof.
  unfold finish.
  destruct (String.eqb_spec (success P self (value w)) "") as [E|_].
  - unfold success in E.
    do 4 (apply append_empty in E; destruct E as [_ E]). discriminate.
  - cbn. rewrite <- !app_assoc. reflexivity.
Qed.

(** X11.  [#execute] throws for two reasons only: the replay of a failed
    injected value, with the error line of the recorded message, or an
    error thrown by the reader.  Its own "internal error: failed to read
    value" is never thrown, because [read] answers [true] only when a
    value is set. *)
Theorem execute_throws_replay_or_read_error
  (P : Platform) (self : Prompt) (fuel : nat) (w : World)
  (e : string) (w' : World) :
  execute P self fuel w = (Thrown e, w') ->
  (defined (injectedValue w') = true
   /\ exists m, lastError w' = Some m /\ m <> ""
                /\ e = error_line P self m)
  \/ (exists n, reads P n = ReadError e).
Proof.
  revert w. induction fuel as [|fuel IH]; intros w.
  - cbn. discriminate.
  - rewrite execute_step.
    destruct (defined (injectedValue w)) eqn:Hinj; cbn [andb].
    + destruct (lastError w) as [m|] eqn:Herr; cbn [truthy_string].
      * destruct (String.eqb_spec m "") as [E|E]; cbn [negb].
        -- destruct (read P self (set_lastError None (snd (render P self w))))
             as [[[|]|e0|c|] w2] eqn:Hr.
           ++ rewrite (read_true P self _ _ Hr). discriminate.
           ++ apply IH.
           ++ apply read_throws in Hr. intros H. injection H as <- <-.
              right. eexists. exact (proj2 Hr).
           ++ discriminate.
           ++ discriminate.
        -- intros H. injection H as <- <-. left.
           split; [exact Hinj |]. exists m.
           split; [exact Herr | split; [exact E |]].
           unfold error, error_line. rewrite Herr.
           destruct (String.eqb_spec m ""); [contradiction | reflexivity].
      * destruct (read P self (set_lastError None (snd (render P self w))))
          as [[[|]|e0|c|] w2] eqn:Hr.
        -- rewrite (read_true P self _ _ Hr). discriminate.
        -- apply IH.
        -- apply read_throws in Hr. intros H. injection H as <- <-.
           right. eexists. exact (proj2 Hr).
        -- discriminate.
        -- discriminate.
    + destruct (read P self (set_lastError None (snd (render P self w))))
        as [[[|]|e0|c|] w2] eqn:Hr.
      * rewrite (read_true P self _ _ Hr). discriminate.
      * apply IH.
      * apply read_throws in Hr. intros H. injection H as <- <-.
        right. eexists. exact (proj2 Hr).
      * discriminate.
      * discriminate.
Qed.

Lemma execute_throws_replay_or_read_error_witness :
  (defined (injectedValue
              (snd (execute console strict_prompt 2
                      (snd (inject (JString "a") fresh))))) = true
   /\ exists m, lastError (snd (execute console strict_prompt 2
                                  (snd (inject (JString "a") fresh))))
                = Some m
                /\ m <> "" /\ "x too short" = error_line console strict_prompt m)
  \/ (exists n, reads console n = ReadError "x too short").
Proof.
  assert (H : execute console strict_prompt 2 (snd (inject (JString "a") fresh))
              = (Thrown "x too short",
                 snd (execute console strict_prompt 2
                        (snd (inject (JString "a") fresh)))))
    by (vm_compute; reflexivity).
  exact (execute_throws_replay_or_read_error console strict_prompt 2
           (snd (inject (JString "a") fresh)) "x too short" _ H).
Defined.

(** X12.  A call that resolves returns the stored value, which is
    defined, and ends by erasing the render, writing the success line
    of that value to the writer and showing the cursor, in this order. *)
Theorem execute_resolves_with_success_line
  (P : Platform) (self : Prompt) (fuel : nat) (w : World)
  (v : JsValue) (w' : World) :
  execute P self fuel w = (Returned v, w') ->
  value w' = v
  /\ defined v = true
  /\ cursorVisible w' = true
  /\ exists t, trace w'
               = (t ++ [CursorLeft; EraseDown;
                        WriterWrite (success P self v ++ String newline "");
                        CursorShow])%list.
Proof.
  revert w. induction fuel as [|fuel IH]; intros w.
  - cbn. discriminate.
  - rewrite execute_step.
    destruct (defined (injectedValue w) && truthy_string (lastError w));
      [discriminate |].
    destruct (read P self (set_lastError None (snd (render P self w))))
      as [[[|]|e0|c|] w2]; try discriminate.
    + destruct (defined (value w2)) eqn:Hd; cbn [negb]; [| discriminate].
      intros H. injection H as <- <-.
      split; [| split; [exact Hd | split]].
      * unfold finish.
        destruct (negb (success P self (value w2) =? "")%string); reflexivity.
      * unfold finish.
        destruct (negb (success P self (value w2) =? "")%string); reflexivity.
      * exists (trace w2). apply finish_trace.
    + apply IH.
Qed.

Lemma execute_resolves_with_success_line_witness :
  value (snd (execute console ann_prompt 1 (snd (inject (JString "") fresh))))
  = JString "Ann".
Proof.
  assert (H : execute console ann_prompt 1 (snd (inject (JString "") fresh))
              = (Returned (JString "Ann"),
                 snd (execute console ann_prompt 1
                        (snd (inject (JString "") fresh)))))
    by (vm_compute; reflexivity).
  exact (proj1 (execute_resolves_with_success_line console ann_prompt 1
                  (snd (inject (JString "") fresh)) (JString "Ann") _ H)).
Defined.

(** X13.  However a [prompt()] call settles, the terminal shows the
    cursor afterwards: a call that returns or throws ends by showing
    the cursor (the [finally] block), and a call that ends by a process
    exit has shown it before exiting. *)
Theorem prompt_leaves_cursor_visible
  (P : Platform) (self : Prompt) (fuel : nat) (w : World)
  (o : Outcome JsValue) (w' : World) :
  prompt P self fuel w = (o, w') ->
  o <> Unsettled ->
  cursorVisible w' = true
  /\ ((forall c, o <> Exited c) ->
      exists t, trace w' = (t ++ [CursorShow])%list).
Proof.
  unfold prompt, try_finally.
  destruct (execute P self fuel w) as [[v|e|c|] w1] eqn:Hx;
    intros H Hs; injection H as <- <-.
  - split; [reflexivity |]. intros _. exists (trace w1). reflexivity.
  - split; [reflexivity |]. intros _. exists (trace w1). reflexivity.
  - destruct (execute_exit P self fuel w c w1 Hx) as [_ [Hc _]].
    split; [exact Hc |]. intros Hn. destruct (Hn c eq_refl).
  - destruct (Hs eq_refl).
Qed.

Lemma prompt_leaves_cursor_visible_witness :
  cursorVisible
    (snd (prompt console strict_prompt 2 (snd (inject (JString "a") fresh))))
  = true.
Proof.
  assert (H : prompt console strict_prompt 2 (snd (inject (JString "a") fresh))
              = (Thrown "x too short",
                 snd (prompt console strict_prompt 2
                        (snd (inject (JString "a") fresh)))))
    by (vm_compute; reflexivity).
  assert (Hs : @Thrown JsValue "x too short" <> Unsettled) by discriminate.
  exact (proj1 (prompt_leaves_cursor_visible console strict_prompt 2
                  (snd (inject (JString "a") fresh)) _ _ H Hs)).
Defined.

(** ** The loop: what it does to the input source *)

Lemma quiet_set_lastError (e : option string) (w w' : World) :
  quiet w w' -> quiet w (set_lastError e w').
Proof. intros H. exact H. Qed.

(** X14.  With an injected value in the slot, a call never touches the
    input source: however long it runs and however it ends, it has
    issued no read, switched no raw mode and decoded nothing. *)
Theorem execute_injected_never_reads
  (P : Platform) (self : Prompt) (fuel : nat) (w : World) :
  defined (injectedValue w) = true ->
  readCount (snd (execute P self fuel w)) = readCount w
  /\ rawMode (snd (execute P self fuel w)) = rawMode w
  /\ filter input_effect (trace (snd (execute P self fuel w)))
     = filter input_effect (trace w).
Proof.
  change (defined (injectedValue w) = true ->
          quiet w (snd (execute P self fuel w))).
  revert w. induction fuel as [|fuel IH]; intros w Hinj.
  - apply quiet_refl.
  - rewrite execute_step. rewrite Hinj. cbn [andb].
    destruct (truthy_string (lastError w)); [apply quiet_refl |].
    assert (Hinj1 : defined (injectedValue
                               (set_lastError None (snd (render P self w))))
                    = true).
    { cbn [injectedValue set_lastError].
      rewrite (proj1 (render_preserves P self w)). exact Hinj. }
    rewrite (read_injected P self _ Hinj1).
    assert (Hq : quiet w (snd (validateValue self
                   (injectedValue (set_lastError None (snd (render P self w))))
                   (set_lastError None (snd (render P self w)))))).
    { eapply quiet_trans; [| apply validateValue_quiet].
      apply quiet_set_lastError, render_quiet. }
    assert (Hinj2 : defined (injectedValue (snd (validateValue self
                   (injectedValue (set_lastError None (snd (render P self w))))
                   (set_lastError None (snd (render P self w)))))) = true).
    { rewrite validateValue_preserves_slot. exact Hinj1. }
    destruct (defined (value (snd (validateValue self
                   (injectedValue (set_lastError None (snd (render P self w))))
                   (set_lastError None (snd (render P self w)))))));
      cbn [negb snd].
    + eapply quiet_trans; [exact Hq | apply finish_quiet].
    + eapply quiet_trans; [exact Hq | apply IH; exact Hinj2].
Qed.

Lemma execute_injected_never_reads_witness :
  readCount (snd (execute console strict_prompt 2
                    (snd (inject (JString "a") fresh)))) = 0%nat.
Proof.
  exact (proj1 (execute_injected_never_reads console strict_prompt 2
                  (snd (inject (JString "a") fresh)) eq_refl)).
Defined.

Lemma read_rawMode (P : Platform) (self : Prompt) (w : World) :
  rawMode w = false ->
  (forall n e, reads P n <> ReadError e) ->
  rawMode (snd (read P self w)) = false.
Proof.
  intros Hraw Hok.
  destruct (defined (injectedValue w)) eqn:Hd.
  - rewrite (read_injected P self w Hd). cbn [snd].
    rewrite (proj1 (validateValue_frame self _ w)). exact Hraw.
  - rewrite (read_typed P self w Hd).
    destruct (readKey_frame P self w) as [_ [_ [_ [_ Hr]]]].
    specialize (Hr (Hok (readCount w))).
    assert (Hk : rawMode (snd (readKey P self w)) = false)
      by (rewrite Hr, Hraw; destruct (isatty P); reflexivity).
    destruct (readKey P self w) as [[events|e|c|] w1]; cbn [snd] in *;
      try exact Hk.
    destruct (length events =? 0)%nat; [exact Hk |].
    pose proof (proj1 (handleEvents_frame self events w1)) as Hh.
    destruct (handleEvents self events w1) as [[[]|e|c|] w2];
      cbn [snd] in *; congruence.
Qed.

(** X15.  As long as no read of the reader rejects, the loop never
    leaves raw mode on: started with raw mode off, a call has raw mode
    off whenever it returns, throws, exits or is still running. *)
Theorem execute_leaves_raw_mode_off
  (P : Platform) (self : Prompt) (fuel : nat) (w : World) :
  rawMode w = false ->
  (forall n e, reads P n <> ReadError e) ->
  rawMode (snd (execute P self fuel w)) = false.
Proof.
  intros Hraw Hok. revert w Hraw.
  induction fuel as [|fuel IH]; intros w Hraw; [exact Hraw |].
  rewrite execute_step.
  destruct (defined (injectedValue w) && truthy_string (lastError w));
    [exact Hraw |].
  assert (Hraw1 : rawMode (set_lastError None (snd (render P self w))) = false).
  { cbn [rawMode set_lastError].
    destruct (render_frame P self w) as [_ [_ [Hr _]]]. congruence. }
  pose proof (read_rawMode P self _ Hraw1 Hok) as Hraw2.
  destruct (read P self (set_lastError None (snd (render P self w))))
    as [[[|]|e|c|] w2]; cbn [snd] in *; try exact Hraw2.
  - destruct (negb (defined (value w2))); cbn [snd]; [exact Hraw2 |].
    destruct (finish_quiet P self w2) as [_ [Hr _]]. congruence.
  - apply IH. exact Hraw2.
Qed.

Lemma execute_leaves_raw_mode_off_witness :
  rawMode (snd (execute (terminal typed_ab) strict_prompt 3 fresh)) = false.
Proof.
  assert (Hok : forall n e, reads (terminal typed_ab) n <> ReadError e)
    by (intros n e; discriminate).
  exact (execute_leaves_raw_mode_off (terminal typed_ab) strict_prompt 3 fresh
           eq_refl Hok).
Defined.

(** ** The loop: when it does not end *)

(** X16.  An injected value that is neither turned into a value nor into
    an error is retried for ever: when the pipeline accepts it and the
    transform returns [undefined], or when the validator answers the
    empty string, no iteration throws or returns, whatever the fuel. *)
Theorem execute_injected_spins
  (P : Platform) (self : Prompt) (fuel : nat) (w : World) :
  defined (injectedValue w) = true ->
  error_set w = false ->
  short_circuit self (injectedValue w) = false ->
  chosen_validate self (injectedValue w) = VString ""
  \/ (chosen_validate self (injectedValue w) = VBool true
      /\ chosen_transform self (injectedValue w) = JUndefined) ->
  fst (execute P self fuel w) = Unsettled.
Proof.
  exact (execute_retries_injected P self fuel w).
Qed.

Lemma execute_injected_spins_witness :
  fst (execute console blank_prompt 50 (snd (inject (JString "a") fresh)))
  = Unsettled
  /\ fst (execute console mute_prompt 50 (snd (inject (JString "a") fresh)))
     = Unsettled.
Proof.
  split.
  - exact (execute_injected_spins console blank_prompt 50
             (snd (inject (JString "a") fresh)) eq_refl eq_refl eq_refl
             (or_intror (conj eq_refl eq_refl))).
  - exact (execute_injected_spins console mute_prompt 50
             (snd (inject (JString "a") fresh)) eq_refl eq_refl eq_refl
             (or_introl eq_refl)).
Defined.

Section Typing.

Variable P : Platform.
Variable self : Prompt.

(** What [read] does with a read that resolves, without an injected
    value. *)
Lemma read_typed_delivered (w : World) :
  defined (injectedValue w) = false ->
  (forall e, reads P (readCount w) <> ReadError e) ->
  (forall data, reads P (readCount w) = ReadBytes data ->
                (length data <= 8)%nat) ->
  read P self w
  = match delivered P (reads P (readCount w)) with
    | [] => (Returned false, snd (readKey P self w))
    | events =>
        match handleEvents self events (snd (readKey P self w)) with
        | (Returned _, w2) => (Returned (defined (value w2)), w2)
        | (Thrown e, w2) => (Thrown e, w2)
        | (Exited c, w2) => (Exited c, w2)
        | (Unsettled, w2) => (Unsettled, w2)
        end
    end.
Proof.
  intros Hd Hok Hlen. rewrite (read_typed P self w Hd).
  pose proof (readKey_delivers P self w Hok Hlen) as Hk.
  destruct (readKey P self w) as [o w1]. cbn [fst snd] in *. subst o.
  destruct (delivered P (reads P (readCount w))); reflexivity.
Qed.


Lemma handleEvents_app_ignored (pre : list KeyCode) (event : KeyCode)
  (w : World) :
  forallb (ignored self) pre = true ->
  handleEvents self (pre ++ [event])%list w = handleEvent self event w.
Proof.
  induction pre as [|e pre IH]; cbn [forallb app handleEvents].
  - intros _. unfold bind.
    destruct (handleEvent self event w) as [[[]|e|c|] w1]; reflexivity.
  - rewrite andb_true_iff. intros [He Hpre]. unfold bind at 1.
    rewrite (handleEvent_ignored self e w He). exact (IH Hpre).
Qed.

End Typing.



(** ** The loop: typed answers *)

(** What [read] does when the read delivers ignored events followed by
    a submit key. *)
Lemma read_typed_submit (P : Platform) (self : Prompt) (w : World)
  (pre : list KeyCode) (event : KeyCode) :
  defined (injectedValue w) = false ->
  (forall e, reads P (readCount w) <> ReadError e) ->
  (forall data, reads P (readCount w) = ReadBytes data ->
                (length data <= 8)%nat) ->
  delivered P (reads P (readCount w)) = (pre ++ [event])%list ->
  forallb (ignored self) pre = true ->
  is_interrupt event = false ->
  isKey (s_keys (settings self)) "submit" event = true ->
  read P self w
  = (Returned (defined (resolved self (getValue self))),
     snd (validateValue self (getValue self) (snd (readKey P self w)))).
Proof.
  intros Hd Hok Hlen Hdel Hpre Hint Hkey.
  rewrite (read_typed_delivered P self w Hd Hok Hlen), Hdel.
  pose proof (handleEvents_app_ignored self pre event
                (snd (readKey P self w)) Hpre) as Hh.
  rewrite (handleEvent_submits self event _ Hint Hkey) in Hh.
  destruct pre as [|e pre]; cbn [app] in *; rewrite Hh;
    rewrite validateValue_value; reflexivity.
Qed.

(** X18.  The interactive happy path.  Without an injected value, when
    the read delivers a submit key (after events the prompt ignores) and
    the pipeline turns the typed value into a value, the call resolves to
    that value in this iteration, after exactly one read. *)
Theorem execute_typed_submit_resolves
  (P : Platform) (self : Prompt) (fuel : nat) (w : World)
  (pre : list KeyCode) (event : KeyCode) :
  defined (injectedValue w) = false ->
  (forall e, reads P (readCount w) <> ReadError e) ->
  (forall data, reads P (readCount w) = ReadBytes data ->
                (length data <= 8)%nat) ->
  delivered P (reads P (readCount w)) = (pre ++ [event])%list ->
  forallb (ignored self) pre = true ->
  is_interrupt event = false ->
  isKey (s_keys (settings self)) "submit" event = true ->
  defined (resolved self (getValue self)) = true ->
  fst (execute P self (S fuel) w) = Returned (resolved self (getValue self))
  /\ readCount (snd (execute P self (S fuel) w)) = S (readCount w).
Proof.
  intros Hd Hok Hlen Hdel Hpre Hint Hkey Hres.
  rewrite execute_step. rewrite Hd. cbn [andb].
  destruct (render_preserves P self w) as [Hslot _].
  destruct (render_frame P self w) as [_ [_ [_ [_ Hn]]]].
  set (w1 := set_lastError None (snd (render P self w))).
  assert (Hd1 : defined (injectedValue w1) = false)
    by (subst w1; cbn [injectedValue set_lastError]; rewrite Hslot; exact Hd).
  assert (Hn1 : readCount w1 = readCount w)
    by (subst w1; cbn [readCount set_lastError]; exact Hn).
  rewrite <- Hn1 in Hok, Hlen, Hdel.
  rewrite (read_typed_submit P self w1 pre event Hd1 Hok Hlen Hdel Hpre
             Hint Hkey).
  rewrite Hres, validateValue_value, Hres. cbn [negb fst snd].
  split; [reflexivity |].
  destruct (finish_quiet P self
              (snd (validateValue self (getValue self)
                      (snd (readKey P self w1))))) as [Hf _].
  rewrite Hf.
  rewrite (proj1 (proj2 (validateValue_frame self _ _))).
  rewrite (proj1 (proj2 (proj2 (readKey_frame P self w1)))).
  rewrite Hn1. reflexivity.
Qed.

Lemma execute_typed_submit_resolves_witness :
  fst (execute (terminal typed_ab)
         (text_prompt (getDefaultSettings console strict_options) (JString "ab"))
         1 fresh)
  = Returned (JString "ab").
Proof.
  assert (Hok : forall e,
             reads (terminal typed_ab) (readCount fresh) <> ReadError e)
    by (intros e; discriminate).
  assert (Hlen : forall data,
             reads (terminal typed_ab) (readCount fresh) = ReadBytes data ->
             (length data <= 8)%nat)
    by (intros data H; injection H as <-; cbn; lia).
  exact (proj1 (execute_typed_submit_resolves (terminal typed_ab)
                  (text_prompt (getDefaultSettings console strict_options)
                     (JString "ab"))
                  0 fresh [decode_byte 97; decode_byte 98] (decode_byte 13)
                  eq_refl Hok Hlen eq_refl eq_refl eq_refl eq_refl eq_refl)).
Defined.

(** X19.  A typed answer that the validator rejects is not thrown: the
    loop goes on to its next iteration with the message recorded and no
    value, and the content of the next render ends with the error line
    of that message in place of the hint. *)
Theorem execute_typed_rejection_retries
  (P : Platform) (self : Prompt) (fuel : nat) (w : World)
  (pre : list KeyCode) (event : KeyCode) (e : string) :
  defined (injectedValue w) = false ->
  (forall e0, reads P (readCount w) <> ReadError e0) ->
  (forall data, reads P (readCount w) = ReadBytes data ->
                (length data <= 8)%nat) ->
  delivered P (reads P (readCount w)) = (pre ++ [event])%list ->
  forallb (ignored self) pre = true ->
  is_interrupt event = false ->
  isKey (s_keys (settings self)) "submit" event = true ->
  short_circuit self (getValue self) = false ->
  rejection (chosen_validate self (getValue self)) = Some e ->
  e <> "" ->
  exists w2,
    execute P self (S fuel) w = execute P self fuel w2
    /\ lastError w2 = Some e
    /\ value w2 = JUndefined
    /\ defined (injectedValue w2) = false
    /\ rendered P self w2
       = join (filter_Boolean
                 [Some (message P self);
                  match body self with Some b => b | None => None end;
                  Some (error_line P self e)]).
Proof.
  intros Hd Hok Hlen Hdel Hpre Hint Hkey Hsc Hrej Hne.
  destruct (render_preserves P self w) as [Hslot _].
  destruct (render_frame P self w) as [_ [_ [_ [_ Hn]]]].
  set (w1 := set_lastError None (snd (render P self w))).
  assert (Hd1 : defined (injectedValue w1) = false)
    by (subst w1; cbn [injectedValue set_lastError]; rewrite Hslot; exact Hd).
  assert (Hn1 : readCount w1 = readCount w)
    by (subst w1; cbn [readCount set_lastError]; exact Hn).
  rewrite <- Hn1 in Hok, Hlen, Hdel.
  exists (snd (validateValue self (getValue self) (snd (readKey P self w1)))).
  assert (Hres : resolved self (getValue self) = JUndefined).
  { unfold resolved. rewrite Hsc.
    destruct (chosen_validate self (getValue self)) as [[|]|m];
      [discriminate | reflexivity | reflexivity]. }
  assert (Herr : lastError (snd (validateValue self (getValue self)
                                   (snd (readKey P self w1)))) = Some e).
  { rewrite (validateValue_validating self _ _ Hsc). cbn [snd].
    unfold validated.
    destruct (chosen_validate self (getValue self)) as [[|]|m];
      cbn in Hrej; try discriminate; injection Hrej as <-; reflexivity. }
  split; [| split; [exact Herr | split; [| split]]].
  - rewrite execute_step. rewrite Hd. cbn [andb]. fold w1.
    rewrite (read_typed_submit P self w1 pre event Hd1 Hok Hlen Hdel Hpre
               Hint Hkey).
    rewrite Hres. reflexivity.
  - rewrite validateValue_value. exact Hres.
  - rewrite validateValue_preserves_slot, readKey_preserves_slot. exact Hd1.
  - unfold rendered, footer, error, error_line. rewrite Herr.
    destruct (String.eqb_spec e ""); [contradiction | reflexivity].
Qed.

Lemma execute_typed_rejection_retries_witness :
  exists w2,
    execute (terminal typed_a) strict_prompt 2 fresh
    = execute (terminal typed_a) strict_prompt 1 w2
    /\ lastError w2 = Some "too short".
Proof.
  assert (Hok : forall e0,
             reads (terminal typed_a) (readCount fresh) <> ReadError e0)
    by (intros e0; discriminate).
  assert (Hlen : forall data,
             reads (terminal typed_a) (readCount fresh) = ReadBytes data ->
             (length data <= 8)%nat)
    by (intros data H; injection H as <-; cbn; lia).
  assert (Hne : "too short" <> "") by discriminate.
  destruct (execute_typed_rejection_retries (terminal typed_a) strict_prompt
              1 fresh [decode_byte 97] (decode_byte 13) "too short"
              eq_refl Hok Hlen eq_refl eq_refl eq_refl eq_refl eq_refl
              eq_refl Hne) as [w2 [Hrun [Herr _]]].
  exists w2. split; assumption.
Defined.

(** ** The loop: an interrupt in the middle of a chunk *)

Lemma handleEvent_returns (self : Prompt) (event : KeyCode) (w : World) :
  is_interrupt event = false ->
  fst (handleEvent self event w) = Returned tt.
Proof.
  unfold is_interrupt, handleEvent. intros ->.
  destruct (isKey (s_keys (settings self)) "submit" event); [| reflexivity].
  unfold submit. rewrite validateValue_returns. reflexivity.
Qed.

Lemma handleEvents_interrupt (self : Prompt) (pre : list KeyCode)
  (event : KeyCode) (rest : list KeyCode) (w : World) :
  forallb (fun e => negb (is_interrupt e)) pre = true ->
  is_interrupt event = true ->
  fst (handleEvents self (pre ++ event :: rest)%list w) = Exited 130.
Proof.
  intros Hpre Hint. revert w.
  induction pre as [|e pre IH]; intros w; cbn [app handleEvents]; unfold bind.
  - unfold handleEvent. unfold is_interrupt in Hint. rewrite Hint.
    reflexivity.
  - cbn [forallb] in Hpre. apply andb_prop in Hpre. destruct Hpre as [He Hpre].
    apply negb_true_iff in He.
    pose proof (handleEvent_returns self e w He) as Hr.
    destruct (handleEvent self e w) as [o w1]. cbn [fst] in Hr. subst o.
    apply (IH Hpre).
Qed.

(** X20.  The events of a chunk are handled to the end: an interrupt
    anywhere in the chunk exits the process with status 130, also when
    an earlier event of the same chunk was a submit whose value the
    pipeline accepted; that value is never returned. *)
Theorem execute_interrupt_in_chunk_exits
  (P : Platform) (self : Prompt) (fuel : nat) (w : World)
  (pre : list KeyCode) (event : KeyCode) (rest : list KeyCode) :
  defined (injectedValue w) = false ->
  (forall e, reads P (readCount w) <> ReadError e) ->
  (forall data, reads P (readCount w) = ReadBytes data ->
                (length data <= 8)%nat) ->
  delivered P (reads P (readCount w)) = (pre ++ event :: rest)%list ->
  forallb (fun e => negb (is_interrupt e)) pre = true ->
  is_interrupt event = true ->
  fst (execute P self (S fuel) w) = Exited 130
  /\ interrupt_exit 130 (snd (execute P self (S fuel) w)).
Proof.
  intros Hd Hok Hlen Hdel Hpre Hint.
  assert (Hx : fst (execute P self (S fuel) w) = Exited 130).
  { rewrite execute_step. rewrite Hd. cbn [andb].
    destruct (render_preserves P self w) as [Hslot _].
    destruct (render_frame P self w) as [_ [_ [_ [_ Hn]]]].
    set (w1 := set_lastError None (snd (render P self w))).
    assert (Hd1 : defined (injectedValue w1) = false)
      by (subst w1; cbn [injectedValue set_lastError]; rewrite Hslot;
          exact Hd).
    assert (Hn1 : readCount w1 = readCount w)
      by (subst w1; cbn [readCount set_lastError]; exact Hn).
    rewrite <- Hn1 in Hok, Hlen, Hdel.
    rewrite (read_typed_delivered P self w1 Hd1 Hok Hlen), Hdel.
    pose proof (handleEvents_interrupt self pre event rest
                  (snd (readKey P self w1)) Hpre Hint) as Hh.
    destruct (pre ++ event :: rest)%list as [|e0 l] eqn:Hl.
    - destruct pre; discriminate.
    - destruct (handleEvents self (e0 :: l) (snd (readKey P self w1)))
        as [o w2]. cbn [fst] in Hh. subst o. reflexivity. }
  split; [exact Hx |].
  destruct (execute P self (S fuel) w) as [o w'] eqn:Hrun.
  cbn [fst snd] in *. subst o.
  exact (execute_exit P self (S fuel) w 130 w' Hrun).
Qed.

Lemma execute_interrupt_in_chunk_exits_witness :
  fst (execute (terminal typed_ab_interrupt)
         (text_prompt (getDefaultSettings console strict_options) (JString "ab"))
         1 fresh)
  = Exited 130.
Proof.
  assert (Hok : forall e,
             reads (terminal typed_ab_interrupt) (readCount fresh)
             <> ReadError e)
    by (intros e; discriminate).
  assert (Hlen : forall data,
             reads (terminal typed_ab_interrupt) (readCount fresh)
             = ReadBytes data -> (length data <= 8)%nat)
    by (intros data H; injection H as <-; cbn; lia).
  exact (proj1 (execute_interrupt_in_chunk_exits
                  (terminal typed_ab_interrupt)
                  (text_prompt (getDefaultSettings console strict_options)
                     (JString "ab"))
                  0 fresh [decode_byte 97; decode_byte 98; decode_byte 13]
                  (decode_byte 3) [] eq_refl Hok Hlen eq_refl eq_refl
                  eq_refl)).
Defined.

(** ** Logical lines of the rendered content *)

Lemma split_single_line (s : string) :
  single_line s = true -> split s = [s].
Proof.
  induction s as [|c s IH]; cbn; [reflexivity |].
  rewrite andb_true_iff, negb_true_iff. intros [-> Hs].
  rewrite (IH Hs). reflexivity.
Qed.

Lemma split_append_newline (a b : string) :
  split (a ++ String newline b) = (split a ++ split b)%list.
Proof.
  induction a as [|c a IH]; cbn.
  - reflexivity.
  - destruct (Ascii.eqb c newline).
    + rewrite IH. reflexivity.
    + rewrite IH. pose proof (split_not_empty a).
      destruct (split a); cbn in *; [lia | reflexivity].
Qed.

Lemma split_join (parts : list string) :
  parts <> [] ->
  forallb single_line parts = true ->
  split (join parts) = parts.
Proof.
  induction parts as [|p parts IH]; [contradiction |].
  intros _. cbn [forallb]. rewrite andb_true_iff. intros [Hp Hps].
  destruct parts as [|q parts].
  - cbn. apply split_single_line. exact Hp.
  - change (join (p :: q :: parts)) with (p ++ String newline (join (q :: parts))).
    rewrite split_append_newline, (split_single_line p Hp).
    rewrite IH; [reflexivity | discriminate | exact Hps].
Qed.

(** X21.  The line count adds up over a newline: the count of two
    contents joined by a newline is the sum of their counts, whether the
    column count is known or not. *)
Theorem linesCount_additive
  (P : Platform) (columns : option Z) (a b : string) :
  linesCount P columns (a ++ String newline b)
  = linesCount P columns a + linesCount P columns b.
Proof.
  unfold linesCount. rewrite split_append_newline.
  destruct columns as [c|].
  - destruct (negb (c =? 0)).
    + rewrite !fold_left_total, map_app. unfold total.
      rewrite fold_right_app.
      generalize (map (fun next : string =>
                         wrapped c (Z.of_nat (String.length (stripColor P next))))
                      (split b)).
      intros lb.
      induction (map (fun next : string =>
                        wrapped c (Z.of_nat (String.length (stripColor P next))))
                     (split a)) as [|n la IH]; cbn [fold_right]; lia.
    + rewrite length_app. lia.
  - rewrite length_app. lia.
Qed.

(** X22.  When the message, the body and the footer hold no newline, the
    logical lines of the rendered content are these parts, the missing
    and the empty ones left out; so without a known column count the
    line count is the number of parts shown, and one when nothing is
    shown. *)
Theorem rendered_lines_are_parts
  (P : Platform) (self : Prompt) (w : World) :
  let parts := filter_Boolean
                 [Some (message P self);
                  match body self with Some b => b | None => None end;
                  footer P self w] in
  forallb single_line parts = true ->
  (parts <> [] -> split (rendered P self w) = parts)
  /\ (parts = [] -> split (rendered P self w) = [""])
  /\ linesCount P None (rendered P self w)
     = Z.max 1 (Z.of_nat (length parts)).
Proof.
  intros parts Hs. unfold rendered. fold parts.
  assert (Hne : parts <> [] -> split (join parts) = parts)
    by (intros H; apply split_join; assumption).
  split; [exact Hne | split].
  - intros ->. reflexivity.
  - unfold linesCount. destruct parts as [|p ps] eqn:E.
    + reflexivity.
    + rewrite Hne by discriminate. cbn [length]. lia.
Qed.

Lemma rendered_lines_are_parts_witness :
  split (rendered console strict_prompt
           (set_lastError (Some "too short") fresh))
  = ["? Name"; "x too short"].
Proof.
  assert (Hne : filter_Boolean
                  [Some (message console strict_prompt);
                   match body strict_prompt with Some b => b | None => None end;
                   footer console strict_prompt
                     (set_lastError (Some "too short") fresh)] <> [])
    by discriminate.
  exact (proj1 (rendered_lines_are_parts console strict_prompt
                  (set_lastError (Some "too short") fresh) eq_refl) Hne).
Defined.
